(** * Tourism assistant: place verification and query orchestration

    A shallow embedding of [api_clients.py], [agents.py], [offline_main.py]
    and the request handler of [app.py], with the properties of the
    verification policy, the intent classifier, the attraction filter and
    the response merge.

    Conventions.
    - A Python [str] is a [string]: the bytes of its UTF-8 text.  [lower],
      [upper], [strip] and [split] act on the ASCII letters and the ASCII
      white space of [str.isspace]; they are Python's functions on ASCII
      text.
    - A number read from JSON is the rational it denotes ([Q]); comparing
      two floats compares these values.
    - [None] is [None]; a missing dict key is [None] where the code reads
      it with [.get].
    - Every HTTP or LLM request goes through the [world], which answers it,
      and is written to a log, so that the order of the calls of one query
      can be stated. *)

From Stdlib Require Import ZArith QArith String Ascii.
From stdpp Require Import gmap strings list pretty.

Close Scope Q_scope.
Local Open Scope Z_scope.
#[local] Set Warnings "-clear-no-such-hyp".

(** ** Python [str] operations used by the program *)

Module PyStr.

(** The line feed, ["\n"]. *)
Definition LF : ascii := "010"%char.
Definition nl : string := String LF "".

(** [c.isspace()] for an ASCII character: TAB, LF, VT, FF, CR, the four
    separators FS, GS, RS, US and the space. *)
Definition isspace (c : ascii) : bool :=
  let n := N_of_ascii c in
  ((9 <=? n) && (n <=? 13) || (28 <=? n) && (n <=? 32))%N.

Definition lower_char (c : ascii) : ascii :=
  let n := N_of_ascii c in
  if ((65 <=? n) && (n <=? 90))%N then ascii_of_N (n + 32) else c.

Definition upper_char (c : ascii) : ascii :=
  let n := N_of_ascii c in
  if ((97 <=? n) && (n <=? 122))%N then ascii_of_N (n - 32) else c.

Fixpoint map_chars (f : ascii -> ascii) (s : string) : string :=
  match s with
  | EmptyString => EmptyString
  | String c rest => String (f c) (map_chars f rest)
  end.

(** [s.lower()] and [s.upper()] of ASCII text.  Python's functions also
    map the letters outside ASCII, which these leave as they are. *)
Definition lower : string -> string := map_chars lower_char.
Definition upper : string -> string := map_chars upper_char.

Fixpoint lstrip (s : string) : string :=
  match s with
  | EmptyString => EmptyString
  | String c rest => if isspace c then lstrip rest else s
  end.

Fixpoint rstrip (s : string) : string :=
  match s with
  | EmptyString => EmptyString
  | String c rest =>
      match rstrip rest with
      | EmptyString => if isspace c then EmptyString else String c EmptyString
      | kept => String c kept
      end
  end.

(** [s.strip()] of ASCII text.  Python's function also removes the white
    space outside ASCII (such as U+00A0), which this one keeps. *)
Definition strip (s : string) : string := rstrip (lstrip s).

(** [s.split()] of ASCII text: the maximal runs of characters that are
    not white space, in order. *)
Fixpoint split (s : string) : list string :=
  match s with
  | EmptyString => []
  | String c rest =>
      if isspace c then split rest
      else
        match rest with
        | EmptyString => [String c EmptyString]
        | String d _ =>
            if isspace d then String c EmptyString :: split rest
            else
              match split rest with
              | word :: words => String c word :: words
              | [] => [String c EmptyString]
              end
        end
  end.

(** [p] is a prefix of [s] ([s.startswith(p)]). *)
Fixpoint startswith (s p : string) {struct p} : bool :=
  match p, s with
  | EmptyString, _ => true
  | String a p', String b s' => if Ascii.eqb a b then startswith s' p' else false
  | String _ _, EmptyString => false
  end.

(** [needle in hay]. *)
Fixpoint contains (needle hay : string) : bool :=
  startswith hay needle
  || match hay with
     | EmptyString => false
     | String _ rest => contains needle rest
     end.

(** [s.split(sep, 1)] for a separator of one character: the text before
    the first [sep] and the text after it, or [s] alone. *)
Fixpoint split1 (sep : ascii) (s : string) : list string :=
  match s with
  | EmptyString => [EmptyString]
  | String c rest =>
      if Ascii.eqb c sep then [EmptyString; rest]
      else
        match split1 sep rest with
        | head :: tail => String c head :: tail
        | [] => [String c EmptyString]
        end
  end.

(** [sep.join(parts)]. *)
Fixpoint join (sep : string) (parts : list string) : string :=
  match parts with
  | [] => ""
  | [x] => x
  | x :: rest => x +:+ sep +:+ join sep rest
  end.

(** [any(p(x) for x in l)]. *)
Definition any {A} (p : A -> bool) (l : list A) : bool := existsb p l.

(** Truth value of an [Optional[str]]: [None] and [""] are false. *)
Definition truthy (o : option string) : bool :=
  match o with
  | Some s => negb (String.eqb s "")
  | None => false
  end.

(** [a or b] on [Optional[str]] values. *)
Definition por (a b : option string) : option string :=
  if truthy a then a else b.

End PyStr.

(** ** Values read from JSON *)

(** A scalar of a JSON document as Python holds it.  A float is carried by
    the text [str] prints for it. *)
Inductive json : Type :=
| JNull
| JBool (b : bool)
| JInt (z : Z)
| JFloat (printed : string)
| JStr (s : string).

(** [str(v)], as an f-string field [{v}] renders it. *)
Definition py_str (v : json) : string :=
  match v with
  | JNull => "None"
  | JBool true => "True"
  | JBool false => "False"
  | JInt z => pretty z
  | JFloat printed => printed
  | JStr s => s
  end.

(** [x < y] on numbers. *)
Definition Qltb (x y : Q) : bool := negb (Qle_bool y x).

(** The float written [0.3]. *)
Definition float_0_3 : Q := (5404319552844595 # 18014398509481984)%Q.

(** ** Provider payloads *)

(** The [address] object of a Nominatim result. *)
Record address : Type := {
  addr_country : option string;
  addr_state : option string;
  addr_city : option string }.

(** One element of the JSON array Nominatim answers with; [None] is a key
    that is absent. *)
Record nominatim_result : Type := {
  nr_name : option string;
  nr_display_name : option string;
  nr_type : option string;
  nr_lat : option Q;
  nr_lon : option Q;
  nr_address : option address;
  nr_importance : option Q;
  nr_osm_type : option string }.

(** The three values of ["match_confidence"]. *)
Inductive confidence : Type := high | medium | low.

Global Instance confidence_eq_dec : EqDecision confidence.
Proof. solve_decision. Defined.

(** The dict built by [get_place_details]. *)
Record place_details : Type := {
  pd_name : string;
  pd_display_name : string;
  pd_type : string;
  pd_lat : Q;
  pd_lon : Q;
  pd_country : string;
  pd_state : string;
  pd_city : string;
  pd_importance : Q;
  pd_osm_type : string;
  pd_match_confidence : confidence }.

(** The Open-Meteo answer: [data["current"]] and [data["current_units"]]. *)
Record forecast : Type := {
  fc_current : option (gmap string json);
  fc_current_units : option (gmap string json) }.

(** The dict built by [get_weather]; it always has these three keys. *)
Record weather_data : Type := {
  wd_temperature : json;
  wd_precipitation_probability : json;
  wd_unit : json }.

(** An element of the Overpass answer; only its [tags] are read. *)
Record element : Type := { el_tags : option (gmap string string) }.

(** An entry of the attraction list: [{"name": ..., "type": ...}]. *)
Record place : Type := { pl_name : string; pl_type : string }.

(** ** The outside world and the log of requests *)

(** What the chat model is asked for. *)
Inductive chat_task : Type :=
| ExtractPlace (user_input : string)
| Apologise (place_name : string)
| ApologiseBriefly (place_name : string).

(** A request with the answer it got; [None] is a request that raised
    (network failure, time-out, HTTP error status, malformed body). *)
Inductive event : Type :=
| Geocode (q : string) (addressdetails : bool) (reply : option (list nominatim_result))
| Forecast (latitude longitude : Q) (reply : option forecast)
| Overpass (latitude longitude : Q) (reply : option (list element))
| Chat (task : chat_task) (reply : option string)
| Translate (text target_lang : string) (keep : option string) (reply : string).

(** The providers.  An answer may depend on everything requested before. *)
Record world : Type := {
  nominatim : list event -> string -> bool -> option (list nominatim_result);
  open_meteo : list event -> Q -> Q -> option forecast;
  overpass : list event -> Q -> Q -> option (list element);
  openai : list event -> chat_task -> option string;
  libretranslate : list event -> string -> string -> option string -> string }.

(** Computations that issue requests: the log goes in and comes out. *)
Definition M (A : Type) : Type := list event -> A * list event.

Definition ret {A} (a : A) : M A := fun log => (a, log).

Definition bind {A B} (m : M A) (k : A -> M B) : M B :=
  fun log => let (a, log') := m log in k a log'.

Notation "'let*' x ':=' m 'in' k" := (bind m (fun x => k))
  (at level 10, x pattern, m at level 100, k at level 200).

(** Weather and Places requests, as opposed to geocoding, chat and
    translation. *)
Definition facet_call (e : event) : bool :=
  match e with
  | Forecast _ _ _ | Overpass _ _ _ => true
  | _ => false
  end.

(** ** api_clients.py *)

Module NominatimClient.
Import PyStr.

(** Lines 98-109 of [get_place_details]: the confidence of a match of the
    found [name] with the [place_name] searched for. *)
Definition match_confidence (name place_name : string) : confidence :=
  let found_name := lower name in
  let search_term := strip (lower place_name) in
  if String.eqb found_name search_term || contains search_term found_name then high
  else if any (fun word => contains word found_name) (split search_term) then medium
  else low.

(** [get_place_details] once [data = response.json()] is there ([None]
    when the request raised). *)
Definition read_place_details (place_name : string)
    (data : option (list nominatim_result)) : option place_details :=
  match data with
  | Some (result :: _) =>
      let name := default place_name (nr_name result) in
      Some {| pd_name := name;
              pd_display_name := default place_name (nr_display_name result);
              pd_type := default "unknown" (nr_type result);
              pd_lat := default 0%Q (nr_lat result);
              pd_lon := default 0%Q (nr_lon result);
              pd_country := default "Unknown" (nr_address result ≫= addr_country);
              pd_state := default "" (nr_address result ≫= addr_state);
              pd_city := default "" (nr_address result ≫= addr_city);
              pd_importance := default 0%Q (nr_importance result);
              pd_osm_type := default "" (nr_osm_type result);
              pd_match_confidence := match_confidence name place_name |}
  | Some [] => None
  | None => None
  end.

(** [verify_place_exists] once [place_details] is there. *)
Definition judge (strict : bool) (found : option place_details)
  : bool * option place_details * string :=
  match found with
  | None => (false, None, "I don't know this place exists.")
  | Some details =>
      let importance := pd_importance details in
      let place_type := lower (pd_type details) in
      if strict then
        if Qltb importance float_0_3
           && bool_decide (place_type ∈ ["hamlet"; "village"; "locality"])
        then (false, Some details, "I don't know this place exists.")
        else
          let confidence := pd_match_confidence details in
          if bool_decide (confidence = low)
          then (false, Some details, "I don't know this place exists.")
          else (true, Some details, "Found " +:+ pd_display_name details)
      else (true, Some details, "Found " +:+ pd_display_name details)
  end.

Section Requests.
Variable w : world.

(** [requests.get(BASE_URL, ...)] followed by [response.json()]. *)
Definition search (q : string) (addressdetails : bool) : M (option (list nominatim_result)) :=
  fun log =>
    let reply := nominatim w log q addressdetails in
    (reply, log ++ [Geocode q addressdetails reply]).

Definition get_coordinates (place_name : string) : M (option (Q * Q)) :=
  let* data := search place_name false in
  ret match data with
      | Some (first :: _) =>
          (* data[0]["lat"] raises KeyError when absent *)
          match nr_lat first, nr_lon first with
          | Some lat, Some lon => Some (lat, lon)
          | _, _ => None
          end
      | Some [] => None
      | None => None
      end.

Definition get_place_details (place_name : string) : M (option place_details) :=
  let* data := search place_name true in
  ret (read_place_details place_name data).

Definition verify_place_exists (place_name : string) (strict : bool)
  : M (bool * option place_details * string) :=
  let* place_details := get_place_details place_name in
  ret (judge strict place_details).
End Requests.
End NominatimClient.

Module OpenMeteoClient.
Section Requests.
Variable w : world.

Definition fetch (latitude longitude : Q) : M (option forecast) :=
  fun log =>
    let reply := open_meteo w log latitude longitude in
    (reply, log ++ [Forecast latitude longitude reply]).

Definition get_weather (latitude longitude : Q) : M (option weather_data) :=
  let* data := fetch latitude longitude in
  ret match data with
      | Some data =>
          match fc_current data with
          | Some current =>
              (* data["current_units"] raises KeyError when absent *)
              match fc_current_units data with
              | Some units =>
                  Some {| wd_temperature := default JNull (current !! "temperature_2m");
                          wd_precipitation_probability :=
                            default JNull (current !! "precipitation_probability");
                          wd_unit := default (JStr "Â°C") (units !! "temperature_2m") |}
              | None => None
              end
          | None => None
          end
      | None => None
      end.
End Requests.
End OpenMeteoClient.

Module OverpassClient.
Import PyStr.

(** [l[:limit]]. *)
Definition slice_to {A} (limit : Z) (l : list A) : list A :=
  take (Z.to_nat (if limit <? 0 then Z.of_nat (length l) + limit else limit)) l.

(** The [for element in ...] loop of [get_tourist_attractions], with its
    two variables [places] and [seen_names]; it gives [places] when the
    loop is left. *)
Fixpoint scan (elements : list element) (limit : Z)
    (places : list place) (seen_names : gset string) : list place :=
  match elements with
  | [] => places
  | element :: rest =>
      let tags := default ∅ (el_tags element) in
      if bool_decide (tags = ∅) then scan rest limit places seen_names
      else if bool_decide (tags !! "tourism" = None) then scan rest limit places seen_names
      else
        let name := por (tags !! "name") (por (tags !! "name:en") (tags !! "name:en-GB")) in
        match name with
        | Some name =>
            if negb (String.eqb name "") && bool_decide (name ∉ seen_names) then
              let places := places ++ [{| pl_name := name;
                                          pl_type := default "attraction" (tags !! "tourism") |}] in
              let seen_names := {[name]} ∪ seen_names in
              if Z.of_nat (length places) >=? limit then places
              else scan rest limit places seen_names
            else scan rest limit places seen_names
        | None => scan rest limit places seen_names
        end
  end.

Section Requests.
Variable w : world.

Definition post (latitude longitude : Q) : M (option (list element)) :=
  fun log =>
    let reply := overpass w log latitude longitude in
    (reply, log ++ [Overpass latitude longitude reply]).

Definition get_tourist_attractions (latitude longitude : Q) (limit : Z) : M (list place) :=
  let* data := post latitude longitude in
  ret match data with
      | Some elements => slice_to limit (scan elements limit [] ∅)
      | None => []
      end.
End Requests.
End OverpassClient.

(** ** agents.py *)

Module WeatherAgent.
Section Agent.
Variable w : world.

Definition get_weather_info (place_name : string) : M (option string) :=
  let* coords := NominatimClient.get_coordinates w place_name in
  match coords with
  | None => ret None
  | Some (lat, lon) =>
      let* weather_data := OpenMeteoClient.get_weather w lat lon in
      match weather_data with
      | None => ret None
      | Some weather_data =>
          let temp := wd_temperature weather_data in
          let precip_prob := wd_precipitation_probability weather_data in
          let unit := wd_unit weather_data in
          ret (Some ("In " +:+ place_name +:+ " it's currently " +:+ py_str temp
                     +:+ py_str unit +:+ " with a chance of " +:+ py_str precip_prob
                     +:+ "% to rain."))
      end
  end.
End Agent.
End WeatherAgent.

Module PlacesAgent.
Import PyStr.
Section Agent.
Variable w : world.

Definition get_places_info (place_name : string) (limit : Z) : M (option string) :=
  let* coords := NominatimClient.get_coordinates w place_name in
  match coords with
  | None => ret None
  | Some (lat, lon) =>
      let* attractions := OverpassClient.get_tourist_attractions w lat lon limit in
      match attractions with
      | [] =>
          ret (Some ("In " +:+ place_name +:+ " these are the places you can go, - - - - -"
                     +:+ nl +:+ "(No tourist attractions found in the database)"))
      | _ :: _ =>
          let places_list := join nl (pl_name <$> attractions) in
          ret (Some ("In " +:+ place_name +:+ " these are the places you can go, - - - - -"
                     +:+ nl +:+ places_list))
      end
  end.
End Agent.
End PlacesAgent.

(** The dict returned by [determine_intent]. *)
Record intent : Type := { weather : bool; places : bool }.

Module TourismAIAgent.
Import PyStr.

Definition weather_keywords : list string :=
  ["temperature"; "weather"; "rain"; "temperature there"; "hot"; "cold"; "forecast"].
Definition places_keywords : list string :=
  ["places"; "visit"; "attractions"; "tourist"; "see"; "go"; "plan my trip"].

Definition determine_intent (user_input : string) : intent :=
  let user_lower := lower user_input in
  let needs_weather := any (fun keyword => contains keyword user_lower) weather_keywords in
  let needs_places := any (fun keyword => contains keyword user_lower) places_keywords in
  let needs_places :=
    if negb needs_weather && negb needs_places then true else needs_places in
  {| weather := needs_weather; places := needs_places |}.

(** The piece appended for the places when the weather piece precedes
    it (lines 253-259 of agents.py, 63-69 of offline_main.py). *)
Definition and_places (places_info : string) : string :=
  if contains nl places_info then
    let places_list := nth 1 (split1 LF places_info) "" in
    "And these are the places you can go: - - - - -" +:+ nl +:+ places_list
  else "And " +:+ places_info.

Section Agent.
Variable w : world.

Definition chat (task : chat_task) : M (option string) :=
  fun log => let reply := openai w log task in (reply, log ++ [Chat task reply]).

Definition extract_place_name (user_input : string) : M (option string) :=
  let* content := chat (ExtractPlace user_input) in
  ret match content with
      | Some content =>
          let place_name := strip content in
          if String.eqb (upper place_name) "NONE" || String.eqb place_name "" then None
          else Some place_name
      | None => None
      end.

Definition process_query (user_input : string) : M string :=
  let* place_name := extract_place_name user_input in
  match place_name with
  | None =>
      ret "I couldn't identify a place name in your message. Please specify a location."
  | Some place_name =>
      if String.eqb place_name "" then
        ret "I couldn't identify a place name in your message. Please specify a location."
      else
      let* verdict := NominatimClient.verify_place_exists w place_name true in
      let '(exists_, place_details, _) := verdict in
      if negb exists_ then
        let* content := chat (Apologise place_name) in
        ret match content with
            | Some content => strip content
            | None => "I don't know this place exists. Could you please check the spelling or provide more details about the location?"
            end
      else
        let intent := determine_intent user_input in
        let* weather_info :=
          if weather intent then WeatherAgent.get_weather_info w place_name else ret None in
        let* places_info :=
          if places intent then PlacesAgent.get_places_info w place_name 5 else ret None in
        let response_parts := [] in
        let response_parts :=
          match weather_info with
          | Some info => if truthy weather_info then response_parts ++ [info] else response_parts
          | None => response_parts
          end in
        let response_parts :=
          match places_info with
          | Some info =>
              if truthy places_info then
                if truthy weather_info then response_parts ++ [and_places info]
                else response_parts ++ [info]
              else response_parts
          | None => response_parts
          end in
        match response_parts with
        | [] => ret ("I found " +:+ place_name
                     +:+ ", but couldn't retrieve information. Please try again.")
        | _ :: _ => ret (join " " response_parts)
        end
  end.
End Agent.
End TourismAIAgent.

(** ** offline_main.py *)

Module TourismSystemOffline.
Import PyStr.
Section System.
Variable w : world.

Definition get_weather_info (place_name : string) : M (option string) :=
  let* coords := NominatimClient.get_coordinates w place_name in
  match coords with
  | None => ret None
  | Some (lat, lon) =>
      let* weather_data := OpenMeteoClient.get_weather w lat lon in
      match weather_data with
      | None => ret None
      | Some weather_data =>
          let temp := wd_temperature weather_data in
          let precip_prob := wd_precipitation_probability weather_data in
          let unit := wd_unit weather_data in
          ret (Some ("In " +:+ place_name +:+ " it's currently " +:+ py_str temp
                     +:+ py_str unit +:+ " with a chance of " +:+ py_str precip_prob
                     +:+ "% to rain."))
      end
  end.

Definition get_places_info (place_name : string) (limit : Z) : M (option string) :=
  let* coords := NominatimClient.get_coordinates w place_name in
  match coords with
  | None => ret None
  | Some (lat, lon) =>
      let* attractions := OverpassClient.get_tourist_attractions w lat lon limit in
      match attractions with
      | [] =>
          ret (Some ("In " +:+ place_name +:+ " these are the places you can go, - - - - -"
                     +:+ nl +:+ "(No tourist attractions found in the database)"))
      | _ :: _ =>
          let places_list := join nl (pl_name <$> attractions) in
          ret (Some ("In " +:+ place_name +:+ " these are the places you can go, - - - - -"
                     +:+ nl +:+ places_list))
      end
  end.

Definition process_query (place_name : string) (get_weather get_places : bool) : M string :=
  let response_parts := [] in
  let* response_parts :=
    if get_weather then
      let* weather_info := get_weather_info place_name in
      match weather_info with
      | Some info =>
          if truthy weather_info then ret (response_parts ++ [info])
          else ret (response_parts ++ ["Could not retrieve weather information for "
                                       +:+ place_name +:+ "."])
      | None => ret (response_parts ++ ["Could not retrieve weather information for "
                                        +:+ place_name +:+ "."])
      end
    else ret response_parts in
  let* response_parts :=
    if get_places then
      let* places_info := get_places_info place_name 5 in
      match places_info with
      | Some info =>
          if truthy places_info then
            if get_weather && bool_decide (response_parts ≠ [])
            then ret (response_parts ++ [TourismAIAgent.and_places info])
            else ret (response_parts ++ [info])
          else ret (response_parts ++ ["Could not retrieve tourist attractions for "
                                       +:+ place_name +:+ "."])
      | None => ret (response_parts ++ ["Could not retrieve tourist attractions for "
                                        +:+ place_name +:+ "."])
      end
    else ret response_parts in
  match response_parts with
  | [] => ret ("Could not retrieve information for " +:+ place_name +:+ ". Please try again.")
  | _ :: _ => ret (join " " response_parts)
  end.
End System.
End TourismSystemOffline.

(** ** app.py *)

Module App.
Import PyStr.

(** The JSON body of a request to [/api/query], with the defaults of
    [data.get] filled in. *)
Record query_data : Type := {
  qd_place : string;
  qd_mode : string;
  qd_weather : bool;
  qd_places : bool;
  qd_user_input : string;
  qd_language : string }.

(** A [jsonify(...)] answer: the HTTP status, the ['success'] flag and
    the ['response'] or ['error'] text. *)
Record reply : Type := { status : Z; success : bool; text : string }.

Section Handlers.
Variable w : world.
(** The module-level flag set when [TourismAIAgent()] could be built. *)
Variable has_openai : bool.

(** [translator.translate] and [translator.translate_response]: nothing
    is requested for English or for an empty text; otherwise the
    translation service answers ([keep] is the place name that
    [translate_response] protects by a placeholder). *)
Definition translate (text target_lang : string) (keep : option string) : M string :=
  if String.eqb target_lang "en" || String.eqb text "" then ret text
  else fun log =>
         let reply := libretranslate w log text target_lang keep in
         (reply, log ++ [Translate text target_lang keep reply]).

Definition generate_error_response (place_name target_lang : string) (use_ai : bool)
  : M string :=
  let* ai_message :=
    if use_ai && has_openai then
      let* content := TourismAIAgent.chat w (ApologiseBriefly place_name) in
      ret (strip <$> content)
    else ret None in
  let error_msg := default "I don't know this place exists." ai_message in
  if negb (String.eqb target_lang "en") then translate error_msg target_lang None
  else ret error_msg.

(** [query], for a body that is a JSON object with text under ['place'],
    ['mode'], ['user_input'] and ['language'] and truth values under
    ['weather'] and ['places']: the [try] block of lines 44-170.  The
    [except] branches (lines 98-131 and 172-176, with status 500, 401 or
    429) are left out: they answer a body of another shape, or an
    exception raised past the handlers of the clients, as by a geocoder
    record whose fields do not have their types. *)
Definition query (data : query_data) : M reply :=
  let place_name := strip (qd_place data) in
  let mode := qd_mode data in
  let get_weather := qd_weather data in
  let get_places := qd_places data in
  let user_input := qd_user_input data in
  let target_lang := qd_language data in
  if String.eqb place_name "" && String.eqb user_input "" then
    ret {| status := 400; success := false;
           text := "Please provide a place name or query" |}
  else if String.eqb mode "online" then
    if negb has_openai then
      ret {| status := 400; success := false;
             text := "AI Mode is not available. OpenAI API key is missing. Please use Offline Mode instead." |}
    else if String.eqb user_input "" then
      ret {| status := 400; success := false;
             text := "Please enter your query in the text area" |}
    else
      let* response := TourismAIAgent.process_query w user_input in
      let* response :=
        if negb (String.eqb target_lang "en") then translate response target_lang None
        else ret response in
      ret {| status := 200; success := true; text := response |}
  else if String.eqb place_name "" then
    ret {| status := 400; success := false;
           text := "Please provide a place name for offline mode" |}
  else
    let* verdict := NominatimClient.verify_place_exists w place_name true in
    let '(exists_, place_details, message) := verdict in
    if negb exists_ then
      let* error_message := generate_error_response place_name target_lang has_openai in
      ret {| status := 404; success := false; text := error_message |}
    else
      let* response := TourismSystemOffline.process_query w place_name get_weather get_places in
      let* response :=
        if negb (String.eqb target_lang "en")
        then translate response target_lang (Some place_name)
        else ret response in
      ret {| status := 200; success := true; text := response |}.
End Handlers.
End App.

(** ** The specification's reading of the verdict *)

(** [verify_place_exists] answers with a triple [(exists, place_details,
    message)]; the three shapes it takes are the three outcomes. *)
Inductive VerificationOutcome : Type :=
| Verified (record : place_details)
| NotFound
| LowConfidence (record : place_details).

Definition outcome (verdict : bool * option place_details * string) : VerificationOutcome :=
  match verdict with
  | (true, Some record, _) => Verified record
  | (false, Some record, _) => LowConfidence record
  | (_, None, _) => NotFound
  end.

(** ** Notions used to state the properties *)

(** [s] occurs in [t] as a run of consecutive characters. *)
Definition substring_of (s t : string) : Prop :=
  ∃ pre post, t = pre +:+ s +:+ post.

(** Every character of [s] satisfies [p]. *)
Fixpoint every_char (p : ascii → bool) (s : string) : bool :=
  match s with
  | EmptyString => true
  | String c rest => p c && every_char p rest
  end.


(** [t] is [s] trimmed: [s] without the white space at its two ends. *)
Definition trimmed_of (t s : string) : Prop :=
  (∃ left right, s = left +:+ t +:+ right
                 ∧ every_char PyStr.isspace left = true
                 ∧ every_char PyStr.isspace right = true)
  ∧ (∀ c tail, t = String c tail → PyStr.isspace c = false)
  ∧ (∀ init c, t = init +:+ String c "" → PyStr.isspace c = false).

(** The rendering templates of the specification (section 4.3). *)
Definition weather_template (place temp unit precip : string) : string :=
  "In " +:+ place +:+ " it's currently " +:+ temp +:+ unit
  +:+ " with a chance of " +:+ precip +:+ "% to rain.".

Definition places_lead_in (place : string) : string :=
  "In " +:+ place +:+ " these are the places you can go, - - - - -".

Definition connective_prefix : string :=
  "And these are the places you can go: - - - - -".

(** The rejection rule in the words of the specification (section 4.2,
    step 3): the feature type is compared as it is. *)
Definition rejection_as_specified (strict : bool) (record : place_details) : Prop :=
  strict = true
  ∧ ((pd_importance record < float_0_3)%Q
       ∧ pd_type record ∈ ["hamlet"; "village"; "locality"]
     ∨ pd_match_confidence record = low).

(** The rejection rule with the feature type lower-cased first. *)
Definition rejection_rule (strict : bool) (record : place_details) : Prop :=
  strict = true
  ∧ ((pd_importance record < float_0_3)%Q
       ∧ PyStr.lower (pd_type record) ∈ ["hamlet"; "village"; "locality"]
     ∨ pd_match_confidence record = low).

(** An attraction that stands for a named tourism element of the answer:
    the element has tags, a [tourism] tag among them, and the entry's name
    is the first non-empty one of [name], [name:en], [name:en-GB]. *)
Definition taken_from (elements : list element) (entry : place) : Prop :=
  pl_name entry ≠ ""
  ∧ ∃ element tags,
      element ∈ elements
      ∧ el_tags element = Some tags
      ∧ is_Some (tags !! "tourism")
      ∧ PyStr.por (tags !! "name") (PyStr.por (tags !! "name:en") (tags !! "name:en-GB"))
        = Some (pl_name entry).

(** What the loop of [get_tourist_attractions] keeps true of [places] and
    [seen_names]. *)
Definition scan_inv (elements : list element) (places : list place)
    (seen_names : gset string) : Prop :=
  NoDup (pl_name <$> places)
  ∧ (∀ entry, entry ∈ places → pl_name entry ∈ seen_names)
  ∧ Forall (taken_from elements) places.

(** The piece of the answer for each facet, and the answers composed of
    them, as read off [process_query] of offline_main.py and of agents.py. *)
Definition weather_failure (place : string) : string :=
  "Could not retrieve weather information for " +:+ place +:+ ".".

Definition places_failure (place : string) : string :=
  "Could not retrieve tourist attractions for " +:+ place +:+ ".".

Definition offline_weather_piece (place : string) (weather_info : option string) : string :=
  default (weather_failure place) weather_info.

Definition offline_places_piece (place : string) (after_weather : bool)
    (places_info : option string) : string :=
  match places_info with
  | Some info => if after_weather then TourismAIAgent.and_places info else info
  | None => places_failure place
  end.

Definition agent_answer (place : string) (weather_info places_info : option string) : string :=
  match weather_info, places_info with
  | Some sentence, Some info => sentence +:+ " " +:+ TourismAIAgent.and_places info
  | Some sentence, None => sentence
  | None, Some info => info
  | None, None => "I found " +:+ place +:+ ", but couldn't retrieve information. Please try again."
  end.

(** The coordinates of the geocoder's answer, all that [get_coordinates]
    reads of it. *)
Definition coordinates_of (reply : option (list nominatim_result))
  : option (list (option Q * option Q)) :=
  fmap (M := list) (λ r, (nr_lat r, nr_lon r)) <$> reply.

(** A log in which every Weather or Places request comes after a strict
    verification that accepted the place. *)
Definition accepted (e : event) : Prop :=
  ∃ q reply record,
    e = Geocode q true reply
    ∧ outcome (NominatimClient.judge true (NominatimClient.read_place_details q reply))
      = Verified record.

(** A stretch of the log without Weather or Places requests. *)
Definition quiet (log : list event) : Prop :=
  Forall (λ e, facet_call e = false) log.

Definition guarded (log : list event) : Prop :=
  ∀ before e after,
    log = before ++ e :: after → facet_call e = true →
    ∃ v, v ∈ before ∧ accepted v.

(** ** Sample providers *)

Module Sample.

(** The floats written [0.9] and [0.1]. *)
Definition float_0_9 : Q := (8106479329266893 # 9007199254740992)%Q.
Definition float_0_1 : Q := (3602879701896397 # 36028797018963968)%Q.

Definition bangalore : nominatim_result :=
  {| nr_name := Some "Bangalore";
     nr_display_name := Some "Bangalore";
     nr_type := Some "city";
     nr_lat := Some (13 # 1)%Q;
     nr_lon := Some (155 # 2)%Q;
     nr_address := Some {| addr_country := Some "India";
                           addr_state := Some "Karnataka";
                           addr_city := None |};
     nr_importance := Some float_0_9;
     nr_osm_type := Some "relation" |}.

(** A settlement of little importance. *)
Definition tiny (name type_ : string) : nominatim_result :=
  {| nr_name := Some name;
     nr_display_name := Some (name +:+ ", somewhere");
     nr_type := Some type_;
     nr_lat := Some (40 # 1)%Q;
     nr_lon := Some (-75 # 1)%Q;
     nr_address := None;
     nr_importance := Some float_0_1;
     nr_osm_type := Some "node" |}.

Definition gazetteer (q : string) : option (list nominatim_result) :=
  if String.eqb q "Bangalore" then Some [bangalore]
  else if String.eqb q "Smallville" then Some [tiny "Smallville" "hamlet"]
  else if String.eqb q "Littleton" then Some [tiny "Littleton" "Hamlet"]
  else Some [].

Definition mild : forecast :=
  {| fc_current := Some (<["temperature_2m" := JInt 24]>
                         (<["precipitation_probability" := JInt 10]> ∅));
     fc_current_units := Some (<["temperature_2m" := JStr "°C"]> ∅) |}.

Definition sight (name : string) : element :=
  {| el_tags := Some (<["tourism" := "attraction"]> (<["name" := name]> ∅)) |}.

Definition gardens : list element := [sight "Lalbagh"; sight "Cubbon Park"].

Definition assistant (task : chat_task) : option string :=
  match task with
  | ExtractPlace _ => Some "Bangalore"
  | Apologise _ | ApologiseBriefly _ => Some "Sorry, I don't know this place exists."
  end.

(** Providers that answer, each one of them optionally out of order. *)
Definition providers (geocoder_up weather_up : bool) (sights : option (list element)) : world :=
  {| nominatim := λ _ q _, if geocoder_up then gazetteer q else None;
     open_meteo := λ _ _ _, if weather_up then Some mild else None;
     overpass := λ _ _ _, sights;
     openai := λ _ task, assistant task;
     libretranslate := λ _ text _ _, text |}.

Definition all_up : world := providers true true (Some gardens).

(** The geocoder answers the verification (the first request it gets
    after the chat) and is unreachable afterwards. *)
Definition geocoder_once : world :=
  {| nominatim := λ log q _, if bool_decide (length log ≤ 1)%nat then gazetteer q else None;
     open_meteo := λ _ _ _, Some mild;
     overpass := λ _ _ _, Some gardens;
     openai := λ _ task, assistant task;
     libretranslate := λ _ text _ _, text |}.

End Sample.

(** ** app.py: the verification route *)

Module Routes.
Import PyStr.

(** The three answers of [/api/verify-place]: the place is found (200),
    it is not accepted (404), no name was given (400). *)
Inductive place_reply : Type :=
| PlaceFound (place found_place place_type country : string) (coordinates : Q * Q)
    (message : string) (confidence : confidence)
| PlaceUnknown (error : string) (found_place : option string)
| PlaceMissing (error : string).

Section Handlers.
Variable w : world.
Variable has_openai : bool.

(** [verify_place], for a body with text under ['place'] and
    ['language']: the [try] block of lines 183-227.  The [except] branch
    (lines 229-233, status 500) is left out, as in [App.query]. *)
Definition verify_place (place target_lang : string) : M place_reply :=
  let place_name := strip place in
  if String.eqb place_name "" then
    let error_msg := "Please provide a place name" in
    let* error_msg :=
      if negb (String.eqb target_lang "en") then App.translate w error_msg target_lang None
      else ret error_msg in
    ret (PlaceMissing error_msg)
  else
    let* verdict := NominatimClient.verify_place_exists w place_name true in
    let '(exists_, place_details, message) := verdict in
    match place_details with
    | Some details =>
        if exists_ then
          let display_name := pd_display_name details in
          let coords := (pd_lat details, pd_lon details) in
          let* message :=
            if negb (String.eqb target_lang "en") then App.translate w message target_lang None
            else ret message in
          ret (PlaceFound place_name display_name (pd_type details) (pd_country details)
                 coords message (pd_match_confidence details))
        else
          let* error_msg := App.generate_error_response w has_openai place_name target_lang
                              has_openai in
          ret (PlaceUnknown error_msg (Some (pd_display_name details)))
    | None =>
        let* error_msg := App.generate_error_response w has_openai place_name target_lang
                            has_openai in
        ret (PlaceUnknown error_msg None)
    end.
End Handlers.
End Routes.

(** ** offline_main.py: the menu *)

Module Menu.
Import PyStr.

(** What [input()] gives: a line that was typed, or [KeyboardInterrupt]. *)
Inductive keyboard : Type := Typed (line : string) | Interrupted.

(** How [get_user_choice] ends: it returns an option, it returns [None],
    or [input()] raises [EOFError] because nothing is left to read. *)
Inductive chosen : Type := Picked (option_ : string) | Cancelled | OutOfInput.

Definition info_options : list string :=
  ["Weather only"; "Tourist places only"; "Both weather and places"].

(** Lines 148-149 of [main]: the two flags read off the choice. *)
Definition choice_flags (choice : string) : bool * bool :=
  (contains "weather" (lower choice) || contains "both" (lower choice),
   contains "places" (lower choice) || contains "tourist" (lower choice)
   || contains "both" (lower choice)).

Section Keyboard.
(** [int(text)]; [None] is [ValueError]. *)
Variable int_of : string → option Z.

(** What one turn of the loop writes before it reads. *)
Definition menu_text (prompt : string) (options : list string) : list string :=
  [nl +:+ prompt +:+ nl]
  ++ imap (λ i option_, "  " +:+ pretty (Z.of_nat (S i)) +:+ ". " +:+ option_ +:+ nl) options
  ++ [nl +:+ "Enter your choice (1-" +:+ pretty (Z.of_nat (length options)) +:+ "): "].

(** [get_user_choice(prompt, options)] reading from [keys]: the outcome,
    what was written, and the keys that are left. *)
Fixpoint get_user_choice (prompt : string) (options : list string) (keys : list keyboard)
  : chosen * list string * list keyboard :=
  match keys with
  | [] => (OutOfInput, menu_text prompt options, [])
  | Interrupted :: keys => (Cancelled, menu_text prompt options ++ [nl +:+ nl +:+ "Exiting..." +:+ nl], keys)
  | Typed line :: keys =>
      let choice := strip line in
      match int_of choice with
      | Some choice_num =>
          if (1 <=? choice_num) && (choice_num <=? Z.of_nat (length options)) then
            (Picked (nth (Z.to_nat (choice_num - 1)) options ""), menu_text prompt options, keys)
          else
            let '(result, written, keys) := get_user_choice prompt options keys in
            (result,
             menu_text prompt options
             ++ ["Please enter a number between 1 and "
                 +:+ pretty (Z.of_nat (length options)) +:+ nl]
             ++ written, keys)
      | None =>
          let '(result, written, keys) := get_user_choice prompt options keys in
          (result,
           menu_text prompt options ++ ["Please enter a valid number" +:+ nl] ++ written, keys)
      end
  end.
End Keyboard.
End Menu.

(** ** More sample providers *)

Module MoreSamples.

(** A geocoder result with coordinates and nothing else. *)
Definition bare_result : nominatim_result :=
  {| nr_name := None; nr_display_name := None; nr_type := None;
     nr_lat := Some (1 # 1)%Q; nr_lon := Some (2 # 1)%Q; nr_address := None;
     nr_importance := None; nr_osm_type := None |}.

(** A geocoder result that has lost its latitude. *)
Definition no_latitude : nominatim_result :=
  {| nr_name := Some "Bangalore"; nr_display_name := Some "Bangalore";
     nr_type := Some "city"; nr_lat := None; nr_lon := Some (155 # 2)%Q;
     nr_address := None; nr_importance := Some Sample.float_0_9;
     nr_osm_type := Some "relation" |}.

Definition answering (result : nominatim_result) (weather : option forecast) : world :=
  {| nominatim := λ _ _ _, Some [result];
     open_meteo := λ _ _ _, weather;
     overpass := λ _ _ _, Some Sample.gardens;
     openai := λ _ task, Sample.assistant task;
     libretranslate := λ _ text _ _, text |}.

Definition bare : world := answering bare_result (Some Sample.mild).

(** What [get_place_details] makes of [bare_result]. *)
Definition bare_record (place_name : string) : place_details :=
  {| pd_name := place_name; pd_display_name := place_name; pd_type := "unknown";
     pd_lat := (1 # 1)%Q; pd_lon := (2 # 1)%Q; pd_country := "Unknown";
     pd_state := ""; pd_city := ""; pd_importance := 0%Q; pd_osm_type := "";
     pd_match_confidence := high |}.

(** A forecast without the block of units, and one whose blocks are empty. *)
Definition no_units : forecast :=
  {| fc_current := Some (<["temperature_2m" := JInt 24]> ∅); fc_current_units := None |}.

Definition empty_blocks : forecast := {| fc_current := Some ∅; fc_current_units := Some ∅ |}.



(** A chat model that answers every request with the same text. *)
Definition saying (content : option string) : world :=
  {| nominatim := λ _ q _, Sample.gazetteer q;
     open_meteo := λ _ _ _, Some Sample.mild;
     overpass := λ _ _ _, Some Sample.gardens;
     openai := λ _ _, content;
     libretranslate := λ _ text _ _, text |}.

End MoreSamples.

(** ** Further notions *)

(** [s.isascii()]: the text on which [PyStr.lower] and [PyStr.upper] are
    Python's [str.lower] and [str.upper]. *)
Definition isascii (s : string) : bool :=
  every_char (λ c, (N_of_ascii c <? 128)%N) s.

(** The entry that the loop of [get_tourist_attractions] would append for
    an element, were its name not seen before. *)
Definition candidate (element : element) : option place :=
  let tags := default ∅ (el_tags element) in
  match tags !! "tourism" with
  | Some kind =>
      match PyStr.por (tags !! "name") (PyStr.por (tags !! "name:en") (tags !! "name:en-GB")) with
      | Some name => if String.eqb name "" then None
                     else Some {| pl_name := name; pl_type := kind |}
      | None => None
      end
  | None => None
  end.

(** The entries of a list whose name did not occur before (nor in [seen]). *)
Fixpoint first_by_name (seen : gset string) (entries : list place) : list place :=
  match entries with
  | [] => []
  | entry :: rest =>
      if bool_decide (pl_name entry ∈ seen) then first_by_name seen rest
      else entry :: first_by_name ({[pl_name entry]} ∪ seen) rest
  end.

(** All the attractions of an Overpass answer: the named tourism elements
    in the order of the answer, each name once. *)
Definition attractions_of (elements : list element) : list place :=
  first_by_name ∅ (omap candidate elements).

(** Geocoder requests in a log. *)
Definition is_geocode (e : event) : bool :=
  match e with Geocode _ _ _ => true | _ => false end.

Definition geocodes (log : list event) : nat := length (filter (λ e, is_geocode e = true) log).

Definition facet_calls (log : list event) : nat :=
  length (filter (λ e, facet_call e = true) log).

(** One facet: one geocoder request, then at most one request to the
    facet's provider. *)
Definition one_facet (new : list event) : Prop :=
  geocodes new = 1%nat ∧ (facet_calls new ≤ 1)%nat
  ∧ length new = (geocodes new + facet_calls new)%nat.

(** * Properties *)

(** ** Strings *)

Section StringFacts.
Import PyStr.
Local Arguments Ascii.eqb : simpl never.

Lemma app_cons a s t : String a s +:+ t = String a (s +:+ t).
Proof. reflexivity. Qed.

Lemma app_empty_l t : "" +:+ t = t.
Proof. reflexivity. Qed.

Lemma app_assoc' s t u : (s +:+ t) +:+ u = s +:+ t +:+ u.
Proof. induction s as [|a s IH]; [done|]. by rewrite !app_cons, IH. Qed.

Lemma startswith_spec s p : startswith s p = true ↔ ∃ post, s = p +:+ post.
Proof.
  revert s. induction p as [|a p IH]; intros s; simpl.
  - split; [intros _; by exists s | done].
  - destruct s as [|b s].
    + split; [done | intros [post H]; by rewrite app_cons in H].
    + destruct (Ascii.eqb_spec a b) as [->|Hne].
      * rewrite IH. split; intros [post H]; exists post.
        -- by rewrite app_cons, H.
        -- rewrite app_cons in H. by simplify_eq.
      * split; [done | intros [post H]; rewrite app_cons in H; by simplify_eq].
Qed.

Lemma contains_unfold needle hay :
  contains needle hay
  = startswith hay needle
    || match hay with EmptyString => false | String _ rest => contains needle rest end.
Proof. by destruct hay. Qed.

Lemma contains_spec needle hay : contains needle hay = true ↔ substring_of needle hay.
Proof.
  unfold substring_of. split.
  - induction hay as [|c hay IH]; rewrite contains_unfold; intros H;
      apply orb_true_iff in H as [H|H].
    + apply startswith_spec in H as [post ->]. by exists "", post.
    + done.
    + apply startswith_spec in H as [post ->]. by exists "", post.
    + destruct (IH H) as (pre & post & ->). by exists (String c pre), post.
  - intros (pre & post & ->). induction pre as [|c pre IH].
    + rewrite app_empty_l, contains_unfold.
      apply orb_true_iff; left. apply startswith_spec. by exists post.
    + rewrite app_cons, contains_unfold. apply orb_true_iff; by right.
Qed.

Lemma contains_refl s : contains s s = true.
Proof.
  apply contains_spec. exists "", "". rewrite app_empty_l.
  induction s as [|a s IH]; [done|]. by rewrite app_cons, <-IH.
Qed.

Lemma any_spec {A} (p : A → bool) (l : list A) :
  any p l = true ↔ ∃ x, x ∈ l ∧ p x = true.
Proof.
  unfold any. rewrite existsb_exists.
  split; intros (x & Hx & Hp); exists x; split; auto; by apply list_elem_of_In.
Qed.

(** Where the text has a line feed, [split("\n", 1)] cuts it at the
    first one: index 1 exists and holds all that follows the first line. *)
Lemma split1_first_line s :
  contains nl s = true →
  ∃ first rest, s = first +:+ nl +:+ rest
                ∧ contains nl first = false
                ∧ split1 LF s = [first; rest].
Proof.
  induction s as [|c s IH]; [done|].
  intros H. simpl split1. destruct (Ascii.eqb_spec c LF) as [->|Hne].
  - by exists "", s.
  - rewrite contains_unfold in H. apply orb_true_iff in H as [H|H].
    + unfold nl in H. simpl in H. revert H.
      destruct (Ascii.eqb_spec LF c); [by subst | done].
    + destruct (IH H) as (first & rest & Hs & Hfirst & Hsplit).
      exists (String c first), rest. split_and!.
      * by rewrite Hs.
      * rewrite contains_unfold, Hfirst. unfold nl. simpl.
        destruct (Ascii.eqb_spec LF c); [by subst | done].
      * by rewrite Hsplit.
Qed.
(** [split] cuts at white space and nowhere else: a white-space character
    separates what [split] gives for the text on its two sides, and a
    text without white space is one word. *)
Lemma split_cons c rest :
  split (String c rest)
  = if isspace c then split rest
    else match rest with
         | EmptyString => [String c EmptyString]
         | String d _ =>
             if isspace d then String c EmptyString :: split rest
             else match split rest with
                  | word :: words => String c word :: words
                  | [] => [String c EmptyString]
                  end
         end.
Proof. reflexivity. Qed.




Lemma split_words_clean s :
  Forall (λ word, word ≠ "" ∧ every_char (λ c, negb (isspace c)) word = true) (split s).
Proof.
  induction s as [|c s IH]; [constructor|]. rewrite split_cons.
  destruct (isspace c) eqn:Hc; [done|].
  assert (String c "" ≠ "" ∧ every_char (λ c, negb (isspace c)) (String c "") = true)
    as Hone by (split; [done | simpl; by rewrite Hc]).
  destruct s as [|d s]; [by constructor|].
  destruct (isspace d) eqn:Hd; [by constructor|].
  destruct (split (String d s)) as [|word words]; [by constructor|].
  apply Forall_cons in IH as [[_ Hword] Hwords].
  constructor; [|done]. split; [done|]. simpl. by rewrite Hc, Hword.
Qed.

(** [strip] drops white space at the two ends. *)
Lemma strip_leading c s : isspace c = true → strip (String c s) = strip s.
Proof. intros Hc. unfold strip. simpl. by rewrite Hc. Qed.

Lemma rstrip_trailing s c : isspace c = true → rstrip (s +:+ String c "") = rstrip s.
Proof.
  intros Hc. induction s as [|x s IH].
  - rewrite app_empty_l. simpl. by rewrite Hc.
  - rewrite app_cons. simpl. by rewrite IH.
Qed.

Lemma strip_trailing s c : isspace c = true → strip (s +:+ String c "") = strip s.
Proof.
  intros Hc. unfold strip. induction s as [|x s IH].
  - rewrite app_empty_l. simpl. by rewrite Hc.
  - rewrite app_cons. simpl. destruct (isspace x); [done|].
    rewrite <-app_cons. by apply rstrip_trailing.
Qed.

Lemma rstrip_clean s x :
  isspace x = false → rstrip (s +:+ String x "") = s +:+ String x "".
Proof.
  intros Hx. induction s as [|c s IH].
  - rewrite app_empty_l. simpl. by rewrite Hx.
  - rewrite app_cons. simpl. rewrite IH. by destruct s.
Qed.

Lemma strip_clean c s x :
  isspace c = false → isspace x = false →
  strip (String c (s +:+ String x "")) = String c (s +:+ String x "").
Proof.
  intros Hc Hx. unfold strip. simpl. rewrite Hc.
  rewrite <-app_cons. by apply rstrip_clean.
Qed.
End StringFacts.

(** ** Tokens and trimming *)

Section TokenFacts.
Import PyStr.
Local Arguments Ascii.eqb : simpl never.







Lemma lstrip_trims s :
  ∃ left, s = left +:+ lstrip s ∧ every_char isspace left = true
          ∧ ∀ c tail, lstrip s = String c tail → isspace c = false.
Proof.
  induction s as [|c s (left & Heq & Hleft & Hhead)].
  - by exists "".
  - simpl. destruct (isspace c) eqn:Hc.
    + exists (String c left). split_and!; [by rewrite app_cons, <-Heq| |done].
      simpl. by rewrite Hc.
    + exists "". split_and!; [done..|]. intros ?? [= <- _]. done.
Qed.

Lemma rstrip_trims s :
  ∃ right, s = rstrip s +:+ right ∧ every_char isspace right = true
           ∧ ∀ init c, rstrip s = init +:+ String c "" → isspace c = false.
Proof.
  induction s as [|x s (right & Heq & Hright & Hlast)].
  - exists "". split_and!; [done..|]. intros [|??] ?; done.
  - simpl. destruct (rstrip s) as [|k kept] eqn:Hkept.
    + rewrite app_empty_l in Heq. subst right. destruct (isspace x) eqn:Hx.
      * exists (String x s). split_and!; [done| |intros [|??] ?; done].
        simpl. by rewrite Hx.
      * exists s. split_and!; [done..|].
        intros [|i init] c; [by intros [= <-]|].
        rewrite app_cons. intros [= _ H]. by destruct init.
    + exists right. split_and!; [by rewrite app_cons, <-Heq|done|].
      intros [|i init] c; [done|]. rewrite app_cons. intros [= _ H].
      by apply (Hlast init c).
Qed.

(** [strip] trims. *)
Lemma strip_trimmed s : trimmed_of (strip s) s.
Proof.
  unfold strip.
  destruct (lstrip_trims s) as (left & Heq & Hleft & Hhead).
  destruct (rstrip_trims (lstrip s)) as (right & Heq' & Hright & Hlast).
  split_and!; [|intros c tail H|done].
  - exists left, right. by rewrite <-Heq', <-Heq.
  - rewrite H, app_cons in Heq'. by apply (Hhead c (tail +:+ right)).
Qed.
End TokenFacts.

(** ** Running computations *)

Lemma bind_run {A B} (m : M A) (k : A → M B) log a log' :
  m log = (a, log') → bind m k log = k a log'.
Proof. unfold bind. by intros ->. Qed.

Lemma bind_inv {A B} (m : M A) (k : A → M B) log b log'' :
  bind m k log = (b, log'') → ∃ a log', m log = (a, log') ∧ k a log' = (b, log'').
Proof. unfold bind. destruct (m log) as [a log']. eauto. Qed.

(** ** Examples *)

Example split_words : PyStr.split "  new   york city " = ["new"; "york"; "city"].
Proof. reflexivity. Qed.

Example strip_blanks : PyStr.strip "  New York  " = "New York".
Proof. reflexivity. Qed.

Example lower_letters : PyStr.lower "BanGalore 7" = "bangalore 7".
Proof. reflexivity. Qed.

Example contains_go :
  PyStr.contains "go" "bangor" = true ∧ PyStr.contains "rain" "bangor" = false.
Proof. split; reflexivity. Qed.

Example split1_lines :
  PyStr.split1 PyStr.LF ("a" +:+ PyStr.nl +:+ "b" +:+ PyStr.nl +:+ "c")
  = ["a"; "b" +:+ PyStr.nl +:+ "c"].
Proof. reflexivity. Qed.

Example join_parts : PyStr.join " " ["a"; "b"; "c"] = "a b c".
Proof. reflexivity. Qed.

Example slice_negative : OverpassClient.slice_to (-1) [1; 2; 3] = [1; 2].
Proof. reflexivity. Qed.

Example verify_bangalore :
  fst (NominatimClient.verify_place_exists Sample.all_up "Bangalore" true [])
  = (true,
     Some {| pd_name := "Bangalore"; pd_display_name := "Bangalore"; pd_type := "city";
             pd_lat := (13 # 1)%Q; pd_lon := (155 # 2)%Q; pd_country := "India";
             pd_state := "Karnataka"; pd_city := ""; pd_importance := Sample.float_0_9;
             pd_osm_type := "relation"; pd_match_confidence := high |},
     "Found Bangalore").
Proof. reflexivity. Qed.

Example offline_bangalore :
  TourismSystemOffline.process_query Sample.all_up "Bangalore" true true []
  = ("In Bangalore it's currently 24°C with a chance of 10% to rain. And these are the places you can go: - - - - -"
     +:+ PyStr.nl +:+ "Lalbagh" +:+ PyStr.nl +:+ "Cubbon Park",
     [Geocode "Bangalore" false (Some [Sample.bangalore]);
      Forecast (13 # 1)%Q (155 # 2)%Q (Some Sample.mild);
      Geocode "Bangalore" false (Some [Sample.bangalore]);
      Overpass (13 # 1)%Q (155 # 2)%Q (Some Sample.gardens)]).
Proof. vm_compute. reflexivity. Qed.

(** ** Place verification *)

Lemma Qltb_spec x y : Qltb x y = true ↔ (x < y)%Q.
Proof.
  unfold Qltb. rewrite negb_true_iff, <-not_true_iff_false, Qle_bool_iff.
  split; [apply Qnot_le_lt | apply Qlt_not_le].
Qed.

Lemma verify_run w place_name strict log :
  NominatimClient.verify_place_exists w place_name strict log
  = (NominatimClient.judge strict
       (NominatimClient.read_place_details place_name (nominatim w log place_name true)),
     log ++ [Geocode place_name true (nominatim w log place_name true)]).
Proof. reflexivity. Qed.

Lemma judge_rejects strict record :
  fst (fst (NominatimClient.judge strict (Some record))) = false ↔ rejection_rule strict record.
Proof.
  unfold rejection_rule, NominatimClient.judge.
  destruct strict; [|naive_solver].
  destruct (Qltb _ _) eqn:Hlt; [apply Qltb_spec in Hlt | apply not_true_iff_false in Hlt;
    rewrite Qltb_spec in Hlt]; simpl; repeat case_bool_decide; simpl; naive_solver.
Qed.

Lemma judge_some strict record :
  snd (fst (NominatimClient.judge strict (Some record))) = Some record.
Proof.
  unfold NominatimClient.judge.
  destruct strict; [|done]. destruct (_ && _); [done|]. by case_bool_decide.
Qed.

Lemma judge_accepts strict record :
  fst (fst (NominatimClient.judge strict (Some record))) = true →
  NominatimClient.judge strict (Some record)
  = (true, Some record, "Found " +:+ pd_display_name record).
Proof.
  unfold NominatimClient.judge.
  destruct strict; [|done]. destruct (_ && _); [done|]. by case_bool_decide.
Qed.

(** C7: whatever [strict] is, when the geocoder has no match for the name
    (an empty answer) or the request fails, [verify_place_exists] answers
    [(False, None, ...)]: the outcome is [NotFound] and carries no
    record. *)
Theorem verify_not_found (w : world) (place_name : string) (strict : bool) (log : list event) :
  nominatim w log place_name true = None ∨ nominatim w log place_name true = Some [] →
  NominatimClient.verify_place_exists w place_name strict log
  = ((false, None, "I don't know this place exists."),
     log ++ [Geocode place_name true (nominatim w log place_name true)])
  ∧ outcome (fst (NominatimClient.verify_place_exists w place_name strict log)) = NotFound.
Proof.
  intros H. rewrite verify_run. by destruct H as [-> | ->].
Qed.

Lemma verify_not_found_witness :
  NominatimClient.verify_place_exists (Sample.providers false true None) "Bangalore" false []
  = ((false, None, "I don't know this place exists."), [Geocode "Bangalore" true None])
  ∧ outcome (fst (NominatimClient.verify_place_exists
                    (Sample.providers false true None) "Bangalore" false [])) = NotFound.
Proof.
  apply (verify_not_found (Sample.providers false true None) "Bangalore" false []).
  left. reflexivity.
Defined.

(** C2, as the specification words it, fails: a record whose feature type
    is written "Hamlet" is rejected by the strict check although the type
    is none of hamlet, village, locality and the confidence is not low. *)
Lemma strict_rejects_capitalised_type :
  ∃ record,
    outcome (fst (NominatimClient.verify_place_exists Sample.all_up "Littleton" true []))
    = LowConfidence record
    ∧ pd_type record = "Hamlet"
    ∧ pd_match_confidence record = high
    ∧ ¬ rejection_as_specified true record.
Proof.
  eexists. split; [reflexivity|]. split; [reflexivity|]. split; [reflexivity|].
  intros [_ [[_ Hin] | Hlow]]; [|done].
  simpl in Hin. set_solver.
Qed.

(** C2 (amended): when the geocoder returns a record, [verify_place_exists]
    rejects it, still handing the record back, exactly when [strict] is
    set and either the importance is below 0.3 and the lower-cased feature
    type is hamlet, village or locality, or the match confidence is low;
    in every other case the record is verified.  In particular nothing is
    rejected when [strict] is off. *)
Theorem verify_decision (w : world) (place_name : string) (strict : bool)
    (log log' : list event) (record : place_details) :
  NominatimClient.get_place_details w place_name log = (Some record, log') →
  let verdict := fst (NominatimClient.verify_place_exists w place_name strict log) in
  (outcome verdict = LowConfidence record ↔ rejection_rule strict record)
  ∧ (¬ rejection_rule strict record → outcome verdict = Verified record)
  ∧ (strict = false → outcome verdict = Verified record)
  ∧ (outcome verdict = LowConfidence record ∨ outcome verdict = Verified record).
Proof.
  intros Hget verdict.
  assert (verdict = NominatimClient.judge strict (Some record)) as ->.
  { unfold verdict, NominatimClient.verify_place_exists.
    by rewrite (bind_run _ _ _ _ _ Hget). }
  pose proof (judge_rejects strict record) as Hrej.
  pose proof (judge_some strict record) as Hsome.
  pose proof (judge_accepts strict record) as Hacc.
  destruct (NominatimClient.judge strict (Some record)) as [[[] found] message];
    simpl in *; subst found.
  - assert (¬ rejection_rule strict record) as Hno by (rewrite <-Hrej; done).
    split_and!; [split; [done | by intros ?] | done | done | by right].
  - assert (rejection_rule strict record) as Hyes by (by apply Hrej).
    split_and!; [done | done | | by left].
    intros ->. by destruct Hyes.
Qed.

Lemma verify_decision_witness :
  let verdict := fst (NominatimClient.verify_place_exists Sample.all_up "Smallville" true []) in
  let record :=
    {| pd_name := "Smallville"; pd_display_name := "Smallville, somewhere";
       pd_type := "hamlet"; pd_lat := (40 # 1)%Q; pd_lon := (-75 # 1)%Q;
       pd_country := "Unknown"; pd_state := ""; pd_city := "";
       pd_importance := Sample.float_0_1; pd_osm_type := "node";
       pd_match_confidence := high |} in
  (outcome verdict = LowConfidence record ↔ rejection_rule true record)
  ∧ (¬ rejection_rule true record → outcome verdict = Verified record)
  ∧ (true = false → outcome verdict = Verified record)
  ∧ (outcome verdict = LowConfidence record ∨ outcome verdict = Verified record).
Proof.
  apply (verify_decision Sample.all_up "Smallville" true []
           [Geocode "Smallville" true (Some [Sample.tiny "Smallville" "hamlet"])]).
  reflexivity.
Defined.

(** ** Match confidence *)

Lemma match_confidence_high name place_name :
  NominatimClient.match_confidence name place_name = high
  ↔ PyStr.lower name = PyStr.strip (PyStr.lower place_name)
    ∨ substring_of (PyStr.strip (PyStr.lower place_name)) (PyStr.lower name).
Proof.
  unfold NominatimClient.match_confidence.
  destruct (String.eqb_spec (PyStr.lower name) (PyStr.strip (PyStr.lower place_name)))
    as [Heq|Hne]; simpl.
  - split; [by left | done].
  - destruct (PyStr.contains _ _) eqn:Hin.
    + apply contains_spec in Hin. split; [by right | done].
    + apply not_true_iff_false in Hin. rewrite contains_spec in Hin.
      split; [by destruct (PyStr.any _ _) | naive_solver].
Qed.




(** ** Intent classification *)

Lemma keyword_found (keywords : list string) (text : string) :
  PyStr.any (λ keyword, PyStr.contains keyword text) keywords = true
  ↔ ∃ keyword, keyword ∈ keywords ∧ substring_of keyword text.
Proof. rewrite any_spec. by setoid_rewrite contains_spec. Qed.

(** C9: [determine_intent] always asks for at least one facet.  Weather is
    asked for exactly when the lower-cased text contains a weather keyword;
    Places is asked for whenever it contains a places keyword; both can be
    asked for at once; and with no keyword of either list the answer is
    Places alone. *)
Theorem determine_intent_facets (user_input : string) :
  let facets := TourismAIAgent.determine_intent user_input in
  let text := PyStr.lower user_input in
  let has_weather := ∃ k, k ∈ TourismAIAgent.weather_keywords ∧ substring_of k text in
  let has_places := ∃ k, k ∈ TourismAIAgent.places_keywords ∧ substring_of k text in
  (weather facets = true ∨ places facets = true)
  ∧ (weather facets = true ↔ has_weather)
  ∧ (has_places → places facets = true)
  ∧ (has_weather ∧ has_places → facets = {| weather := true; places := true |})
  ∧ (¬ has_weather ∧ ¬ has_places → facets = {| weather := false; places := true |}).
Proof.
  intros facets text has_weather has_places.
  pose proof (keyword_found TourismAIAgent.weather_keywords text) as Hw.
  pose proof (keyword_found TourismAIAgent.places_keywords text) as Hp.
  fold has_weather in Hw. fold has_places in Hp.
  unfold facets, TourismAIAgent.determine_intent. fold text.
  destruct (PyStr.any _ TourismAIAgent.weather_keywords);
    destruct (PyStr.any _ TourismAIAgent.places_keywords); simpl; naive_solver.
Qed.

Lemma determine_intent_facets_witness :
  TourismAIAgent.determine_intent "What is the temperature there? And what can I visit?"
  = {| weather := true; places := true |}.
Proof.
  apply (determine_intent_facets "What is the temperature there? And what can I visit?").
  split.
  - exists "temperature". split; [set_solver|]. apply contains_spec. reflexivity.
  - exists "visit". split; [set_solver|]. apply contains_spec. reflexivity.
Defined.

Example intent_default :
  TourismAIAgent.determine_intent "Bangalore" = {| weather := false; places := true |}.
Proof. reflexivity. Qed.

Example intent_weather_only :
  TourismAIAgent.determine_intent "How hot is Paris?" = {| weather := true; places := false |}.
Proof. reflexivity. Qed.

(** ** The attraction list *)

Section Attractions.
Import OverpassClient.

Lemma taken_from_more elements extra entry :
  taken_from elements entry → taken_from (extra ++ elements) entry.
Proof.
  intros (Hname & element & tags & Hin & ?). split; [done|].
  exists element, tags. rewrite elem_of_app. naive_solver.
Qed.

Lemma scan_inv_result (done_ elements : list element) limit places seen_names :
  scan_inv (done_ ++ elements) places seen_names →
  ∃ seen_names', scan_inv (done_ ++ elements) (scan elements limit places seen_names) seen_names'.
Proof.
  revert done_ places seen_names.
  induction elements as [|element rest IH]; intros done_ places seen_names Hinv;
    [by exists seen_names|].
  assert (scan_inv ((done_ ++ [element]) ++ rest) places seen_names) as Hinv'
    by (by rewrite <-app_assoc).
  assert (∀ l seen, scan_inv ((done_ ++ [element]) ++ rest) l seen →
                    scan_inv (done_ ++ element :: rest) l seen) as Hback
    by (intros l seen; by rewrite <-app_assoc).
  assert (∃ seen', scan_inv (done_ ++ element :: rest)
                     (scan rest limit places seen_names) seen') as Hskip.
  { destruct (IH _ _ _ Hinv') as [seen' ?]. exists seen'. by apply Hback. }
  simpl scan. repeat case_bool_decide; try done.
  destruct (PyStr.por _ _) as [name|] eqn:Hname; [|done].
  destruct (negb (name =? "")%string) eqn:Hne; simpl; [|done].
  case_bool_decide as Hfresh; simpl; [|done].
  apply negb_true_iff, String.eqb_neq in Hne.
  destruct Hinv as (Hdup & Hseen & Hfrom).
  set (entry := {| pl_name := name; pl_type := _ |}).
  assert (scan_inv (done_ ++ element :: rest) (places ++ [entry]) ({[name]} ∪ seen_names))
    as Hnext.
  { split_and!.
    - rewrite fmap_app. apply NoDup_app. split_and!; [done| |apply NoDup_singleton].
      intros x Hx ->%list_elem_of_singleton.
      apply list_elem_of_fmap in Hx as (other & Heq & Hin).
      apply Hfresh. change name with (pl_name entry). rewrite Heq. by apply Hseen.
    - intros other [Hin| ->%list_elem_of_singleton]%elem_of_app; [|set_solver].
      apply elem_of_union_r. by apply Hseen.
    - apply Forall_app_2; [done|]. apply Forall_singleton. split; [done|].
      destruct (el_tags element) as [tags|] eqn:Htags; [|done].
      exists element, tags. split_and!; [set_solver|done| |done].
      simpl in *. by apply not_eq_None_Some. }
  destruct (_ >=? _); [by eexists|].
  change (done_ ++ element :: rest) with (done_ ++ [element] ++ rest) in Hnext.
  rewrite app_assoc in Hnext.
  destruct (IH (done_ ++ [element]) _ _ Hnext) as [seen' ?].
  exists seen'. by apply Hback.
Qed.

Lemma scan_length elements limit places seen_names :
  (length (scan elements limit places seen_names)
   ≤ S (length places) `max` Z.to_nat limit)%nat.
Proof.
  revert places seen_names.
  induction elements as [|element rest IH]; intros places seen_names; simpl scan; [lia|].
  repeat case_bool_decide; try apply IH.
  destruct (PyStr.por _ _) as [name|]; [|apply IH].
  destruct (negb _); simpl; [|apply IH].
  case_bool_decide; simpl; [|apply IH].
  destruct (Z.geb_spec (Z.of_nat (length (places ++ [{| pl_name := name;
              pl_type := default "attraction" (default ∅ (el_tags element) !! "tourism") |}])))
              limit) as [Hfull|Hroom].
  - rewrite length_app. simpl. lia.
  - etrans; [apply IH|]. rewrite length_app in *. simpl in *. lia.
Qed.

Lemma slice_to_length {A} limit (l : list A) :
  0 ≤ limit → Z.of_nat (length (slice_to limit l)) ≤ limit.
Proof.
  intros Hpos. unfold slice_to. rewrite length_take.
  destruct (Z.ltb_spec limit 0); lia.
Qed.

Lemma slice_to_negative {A} limit (l : list A) :
  limit < 0 → (length l ≤ 1)%nat → slice_to limit l = [].
Proof.
  intros Hneg Hlen. unfold slice_to. destruct (Z.ltb_spec limit 0); [|lia].
  replace (Z.to_nat _) with 0%nat by lia. apply take_0.
Qed.
End Attractions.

(** C8, as worded, fails for a negative limit: the list is then empty, and
    its length 0 is not at most -1. *)
Lemma negative_limit_not_met :
  fst (OverpassClient.get_tourist_attractions Sample.all_up (13 # 1)%Q (155 # 2)%Q (-1) []) = []
  ∧ ¬ (Z.of_nat (length (fst (OverpassClient.get_tourist_attractions
                               Sample.all_up (13 # 1)%Q (155 # 2)%Q (-1) []))) ≤ -1).
Proof. split; [reflexivity | intros H; vm_compute in H; by apply H]. Qed.

(** C8 (amended): whatever the provider answers, for whatever coordinates
    and limit, no two entries of the list returned by
    [get_tourist_attractions] have the same name (compared exactly), every
    entry is a named tourism element of the answer, and the list has at
    most [limit] entries when [limit] is not negative; it is empty when
    [limit] is negative. *)
Theorem attractions_unique_and_bounded (w : world) (latitude longitude : Q) (limit : Z)
    (log : list event) :
  let result := fst (OverpassClient.get_tourist_attractions w latitude longitude limit log) in
  NoDup (pl_name <$> result)
  ∧ Forall (taken_from (default [] (overpass w log latitude longitude))) result
  ∧ (0 ≤ limit → Z.of_nat (length result) ≤ limit)
  ∧ (limit < 0 → result = []).
Proof.
  unfold OverpassClient.get_tourist_attractions, OverpassClient.post, bind, ret. simpl.
  destruct (overpass w log latitude longitude) as [elements|]; simpl.
  2: { split_and!; [apply NoDup_nil_2 | done | simpl; lia | done]. }
  destruct (scan_inv_result [] elements limit [] ∅) as (seen & Hdup & _ & Hfrom).
  { split_and!; [apply NoDup_nil_2 | set_solver | done]. }
  simpl in Hdup, Hfrom. split_and!.
  - unfold OverpassClient.slice_to. rewrite fmap_take.
    eapply sublist_NoDup; [exact Hdup | apply sublist_take].
  - by apply Forall_take.
  - intros Hpos. by apply slice_to_length.
  - intros Hneg. apply slice_to_negative; [done|].
    pose proof (scan_length elements limit [] ∅). simpl in *. lia.
Qed.

Lemma attractions_unique_and_bounded_witness :
  let result := [{| pl_name := "Lalbagh"; pl_type := "attraction" |}] in
  NoDup (pl_name <$> result)
  ∧ Forall (taken_from Sample.gardens) result
  ∧ (0 ≤ 1 → Z.of_nat (length result) ≤ 1)
  ∧ (1 < 0 → result = []).
Proof.
  apply (attractions_unique_and_bounded Sample.all_up (13 # 1)%Q (155 # 2)%Q 1 []).
Defined.

Example attractions_deduplicated :
  fst (OverpassClient.get_tourist_attractions
         (Sample.providers true true
            (Some [Sample.sight "Lalbagh"; {| el_tags := None |}; Sample.sight "Lalbagh";
                   {| el_tags := Some (<["name" := "Cafe"]> ∅) |};
                   {| el_tags := Some (<["tourism" := "museum"]> (<["name:en" := "HAL"]> ∅)) |};
                   Sample.sight "Cubbon Park"]))
         (13 # 1)%Q (155 # 2)%Q 5 [])
  = [{| pl_name := "Lalbagh"; pl_type := "attraction" |};
     {| pl_name := "HAL"; pl_type := "museum" |};
     {| pl_name := "Cubbon Park"; pl_type := "attraction" |}].
Proof. reflexivity. Qed.

(** ** The renderings of the two facets *)

Lemma offline_weather_info_eq :
  TourismSystemOffline.get_weather_info = WeatherAgent.get_weather_info.
Proof. reflexivity. Qed.

Lemma offline_places_info_eq :
  TourismSystemOffline.get_places_info = PlacesAgent.get_places_info.
Proof. reflexivity. Qed.

Lemma get_coordinates_run w place_name log :
  NominatimClient.get_coordinates w place_name log
  = (match nominatim w log place_name false with
     | Some (first :: _) =>
         match nr_lat first, nr_lon first with
         | Some lat, Some lon => Some (lat, lon)
         | _, _ => None
         end
     | _ => None
     end,
     log ++ [Geocode place_name false (nominatim w log place_name false)]).
Proof.
  unfold NominatimClient.get_coordinates, NominatimClient.search, bind, ret.
  by destruct (nominatim w log place_name false) as [[|]|].
Qed.

Lemma weather_info_shape w place_name log text log' :
  WeatherAgent.get_weather_info w place_name log = (Some text, log') →
  ∃ data : weather_data,
    text = weather_template place_name (py_str (wd_temperature data))
             (py_str (wd_unit data)) (py_str (wd_precipitation_probability data)).
Proof.
  unfold WeatherAgent.get_weather_info. intros H.
  apply bind_inv in H as ([[lat lon]|] & log1 & _ & H); [|by inversion H].
  apply bind_inv in H as ([data|] & log2 & _ & H); [|by inversion H].
  exists data. unfold ret in H. by simplify_eq.
Qed.

Lemma places_info_shape w place_name limit log text log' :
  PlacesAgent.get_places_info w place_name limit log = (Some text, log') →
  ∃ body, text = places_lead_in place_name +:+ PyStr.nl +:+ body
          ∧ (body = "(No tourist attractions found in the database)"
             ∨ ∃ lat lon log1 attractions,
                 attractions = fst (OverpassClient.get_tourist_attractions w lat lon limit log1)
                 ∧ attractions ≠ []
                 ∧ body = PyStr.join PyStr.nl (pl_name <$> attractions)).
Proof.
  unfold PlacesAgent.get_places_info. intros H.
  apply bind_inv in H as ([[lat lon]|] & log1 & Hc & H); [|by inversion H].
  apply bind_inv in H as (attractions & log2 & Ha & H).
  unfold places_lead_in.
  destruct attractions as [|entry attractions]; unfold ret in H; simplify_eq.
  - eexists. split; [by rewrite !app_assoc' | by left].
  - eexists. split; [by rewrite !app_assoc'|]. right. exists lat, lon, log1. eexists.
    rewrite Ha. done.
Qed.

Lemma weather_info_truthy w place_name log text log' :
  WeatherAgent.get_weather_info w place_name log = (Some text, log') →
  PyStr.truthy (Some text) = true.
Proof. intros [data ->]%weather_info_shape. reflexivity. Qed.

Lemma places_info_truthy w place_name limit log text log' :
  PlacesAgent.get_places_info w place_name limit log = (Some text, log') →
  PyStr.truthy (Some text) = true.
Proof. intros (body & -> & _)%places_info_shape. reflexivity. Qed.

Lemma places_info_has_newline w place_name limit log text log' :
  PlacesAgent.get_places_info w place_name limit log = (Some text, log') →
  PyStr.contains PyStr.nl text = true.
Proof.
  intros (body & -> & _)%places_info_shape. apply contains_spec.
  exists (places_lead_in place_name), body. done.
Qed.

(** ** The answer of [TourismSystemOffline.process_query] *)

Section OfflineAnswer.
Variable w : world.
Variable place_name : string.

Lemma offline_answer_weather log0 log1 weather_info :
  TourismSystemOffline.get_weather_info w place_name log0 = (weather_info, log1) →
  TourismSystemOffline.process_query w place_name true false log0
  = (offline_weather_piece place_name weather_info, log1).
Proof.
  intros Hw. unfold TourismSystemOffline.process_query, bind. rewrite Hw.
  destruct weather_info as [sentence|]; [|done].
  by rewrite (weather_info_truthy _ _ _ _ _ Hw).
Qed.

Lemma offline_answer_places log0 log1 places_info :
  TourismSystemOffline.get_places_info w place_name 5 log0 = (places_info, log1) →
  TourismSystemOffline.process_query w place_name false true log0
  = (offline_places_piece place_name false places_info, log1).
Proof.
  intros Hp. unfold TourismSystemOffline.process_query, bind, ret. rewrite Hp.
  destruct places_info as [info|]; [|done].
  by rewrite (places_info_truthy _ _ _ _ _ _ Hp).
Qed.

Lemma offline_answer_both log0 log1 log2 weather_info places_info :
  TourismSystemOffline.get_weather_info w place_name log0 = (weather_info, log1) →
  TourismSystemOffline.get_places_info w place_name 5 log1 = (places_info, log2) →
  TourismSystemOffline.process_query w place_name true true log0
  = (offline_weather_piece place_name weather_info +:+ " "
     +:+ offline_places_piece place_name true places_info, log2).
Proof.
  intros Hw Hp. unfold TourismSystemOffline.process_query, bind, ret. rewrite Hw.
  pose proof (weather_info_truthy w place_name log0) as Htw.
  pose proof (places_info_truthy w place_name 5 log1) as Htp.
  rewrite <-offline_weather_info_eq in Htw. rewrite <-offline_places_info_eq in Htp.
  remember (TourismSystemOffline.get_places_info w place_name 5) as run_places.
  destruct weather_info as [sentence|]; [rewrite (Htw _ _ Hw)|];
    rewrite Hp; (destruct places_info as [info|]; [rewrite (Htp _ _ Hp)|]); done.
Qed.

Lemma offline_answer_none log0 :
  TourismSystemOffline.process_query w place_name false false log0
  = ("Could not retrieve information for " +:+ place_name +:+ ". Please try again.", log0).
Proof. reflexivity. Qed.
End OfflineAnswer.

(** ** The answer of [TourismAIAgent.process_query] *)

Lemma extract_place_name_run w user_input log :
  TourismAIAgent.extract_place_name w user_input log
  = (match openai w log (ExtractPlace user_input) with
     | Some content =>
         if String.eqb (PyStr.upper (PyStr.strip content)) "NONE"
            || String.eqb (PyStr.strip content) ""
         then None else Some (PyStr.strip content)
     | None => None
     end,
     log ++ [Chat (ExtractPlace user_input) (openai w log (ExtractPlace user_input))]).
Proof. reflexivity. Qed.

Lemma extract_place_name_nonempty w user_input log place_name log' :
  TourismAIAgent.extract_place_name w user_input log = (Some place_name, log') →
  String.eqb place_name "" = false.
Proof.
  rewrite extract_place_name_run. intros H.
  destruct (openai w log (ExtractPlace user_input)) as [content|]; [|by inversion H].
  destruct (String.eqb (PyStr.upper _) _); simpl in H; [by inversion H|].
  destruct (String.eqb (PyStr.strip content) "") eqn:He; by simplify_eq.
Qed.

Section AgentAnswer.
Variable w : world.
Variables user_input place_name : string.
Variables log0 log1 log2 : list event.
Variable record : option place_details.
Variable message : string.
Hypothesis Hextract :
  TourismAIAgent.extract_place_name w user_input log0 = (Some place_name, log1).
Hypothesis Hverify :
  NominatimClient.verify_place_exists w place_name true log1 = ((true, record, message), log2).

Lemma agent_answer_run log3 log4 weather_info places_info :
  (if weather (TourismAIAgent.determine_intent user_input)
   then WeatherAgent.get_weather_info w place_name else ret None) log2
  = (weather_info, log3) →
  (if places (TourismAIAgent.determine_intent user_input)
   then PlacesAgent.get_places_info w place_name 5 else ret None) log3
  = (places_info, log4) →
  TourismAIAgent.process_query w user_input log0
  = (agent_answer place_name weather_info places_info, log4).
Proof.
  intros Hw Hp.
  assert (∀ text, weather_info = Some text → PyStr.truthy (Some text) = true) as Htw.
  { intros text ->. destruct (weather _); [|by inversion Hw].
    by eapply weather_info_truthy. }
  assert (∀ text, places_info = Some text → PyStr.truthy (Some text) = true) as Htp.
  { intros text ->. destruct (places _); [|by inversion Hp].
    by eapply places_info_truthy. }
  unfold TourismAIAgent.process_query.
  rewrite (bind_run _ _ _ _ _ Hextract).
  rewrite (extract_place_name_nonempty _ _ _ _ _ Hextract).
  rewrite (bind_run _ _ _ _ _ Hverify).
  change (negb true) with false. cbv beta iota zeta.
  rewrite (bind_run _ _ _ _ _ Hw).
  rewrite (bind_run _ _ _ _ _ Hp).
  destruct weather_info as [sentence|], places_info as [info|];
    rewrite ?(Htw _ eq_refl), ?(Htp _ eq_refl); done.
Qed.
End AgentAnswer.

Example agent_bangalore :
  fst (TourismAIAgent.process_query Sample.all_up
         "I'm going to go to Bangalore, what is the temperature there? And what are the places I can visit?" [])
  = "In Bangalore it's currently 24°C with a chance of 10% to rain. And these are the places you can go: - - - - -"
    +:+ PyStr.nl +:+ "Lalbagh" +:+ PyStr.nl +:+ "Cubbon Park".
Proof. vm_compute. reflexivity. Qed.

(** ** The first line of a rendering *)

Section FirstLine.
Import PyStr.
Local Arguments Ascii.eqb : simpl never.

Lemma contains_nl_cons c s :
  contains nl (String c s) = Ascii.eqb LF c || contains nl s.
Proof.
  rewrite contains_unfold. unfold nl at 1. simpl.
  by destruct (Ascii.eqb LF c).
Qed.

Lemma contains_nl_app s t : contains nl (s +:+ t) = contains nl s || contains nl t.
Proof.
  induction s as [|c s IH]; [done|].
  by rewrite app_cons, !contains_nl_cons, IH, orb_assoc.
Qed.

Lemma first_line_unique a b x y :
  a +:+ nl +:+ x = b +:+ nl +:+ y →
  contains nl a = false → contains nl b = false → a = b ∧ x = y.
Proof.
  revert b. induction a as [|c a IH]; intros [|d b] Heq Ha Hb;
    rewrite ?app_cons, ?app_empty_l in Heq; unfold nl in Heq;
    rewrite ?app_cons, ?app_empty_l in Heq; simplify_eq.
  - done.
  - rewrite contains_nl_cons in Ha, Hb.
    apply orb_false_iff in Ha as [_ Ha]. apply orb_false_iff in Hb as [_ Hb].
    destruct (IH b) as [-> ->]; done.
Qed.

Lemma lead_in_one_line place_name :
  contains nl place_name = false → contains nl (places_lead_in place_name) = false.
Proof.
  intros H. unfold places_lead_in. by rewrite !contains_nl_app, H.
Qed.

(** The piece that follows the weather sentence keeps of a places
    rendering what comes after its first line. *)
Lemma and_places_of_rendering w place_name limit log places_info log' :
  PlacesAgent.get_places_info w place_name limit log = (Some places_info, log') →
  ∃ first_line places_list,
    places_info = first_line +:+ nl +:+ places_list
    ∧ contains nl first_line = false
    ∧ (contains nl place_name = false → first_line = places_lead_in place_name)
    ∧ TourismAIAgent.and_places places_info = connective_prefix +:+ nl +:+ places_list.
Proof.
  intros H. pose proof (places_info_has_newline _ _ _ _ _ _ H) as Hnl.
  destruct (split1_first_line _ Hnl) as (first_line & places_list & Heq & Hfirst & Hsplit).
  exists first_line, places_list. split_and!; [done..| |].
  - intros Hplace. apply places_info_shape in H as (body & Hshape & _).
    rewrite Hshape in Heq. symmetry in Heq.
    by apply first_line_unique in Heq as [? _]; [|done|apply lead_in_one_line].
  - unfold TourismAIAgent.and_places. by rewrite Hnl, Hsplit.
Qed.
End FirstLine.

(** ** Both facets *)




(** ** A facet that fails *)

Lemma places_info_empty w place_name limit log lat lon log1 :
  NominatimClient.get_coordinates w place_name log = (Some (lat, lon), log1) →
  overpass w log1 lat lon = None ∨ overpass w log1 lat lon = Some [] →
  PlacesAgent.get_places_info w place_name limit log
  = (Some (places_lead_in place_name +:+ PyStr.nl
           +:+ "(No tourist attractions found in the database)"),
     log1 ++ [Overpass lat lon (overpass w log1 lat lon)]).
Proof.
  intros Hc Ho. unfold PlacesAgent.get_places_info.
  rewrite (bind_run _ _ _ _ _ Hc).
  unfold OverpassClient.get_tourist_attractions, OverpassClient.post, bind, ret.
  unfold places_lead_in. rewrite !app_assoc'.
  destruct Ho as [-> | ->]; [done|].
  unfold OverpassClient.slice_to. simpl. by rewrite take_nil.
Qed.

Lemma not_a_facet_sentence (facet : string) :
  "Could not retrieve tourist attractions for Bangalore."
  ≠ "Could not retrieve " +:+ facet +:+ " information for Bangalore.".
Proof.
  change "Could not retrieve tourist attractions for Bangalore."
    with ("Could not retrieve " +:+ "tourist attractions for Bangalore.").
  intros H. apply (inj (String.app "Could not retrieve ")) in H.
  do 34 (destruct facet as [|? facet];
         [rewrite app_empty_l in H; discriminate H
         |rewrite app_cons in H; injection H as _ H]).
  destruct facet; [rewrite app_empty_l in H | rewrite app_cons in H]; discriminate H.
Qed.

(** C4, as worded, fails in three ways.  In the free-text entry point a
    failing weather provider leaves no sentence of its kind: the answer for
    Bangalore is the generic one.  In the structured entry point the
    sentence for Places has other words, and a Places provider that fails
    gives the rendering of an empty list.  None of these answers is
    "Could not retrieve <facet> information for Bangalore.", whatever the
    facet is called. *)
Lemma failure_sentence_differs :
  let free_text :=
    fst (TourismAIAgent.process_query (Sample.providers true false (Some Sample.gardens))
           "What is the weather in Bangalore?" []) in
  let no_coordinates :=
    fst (TourismSystemOffline.process_query (Sample.providers false true (Some Sample.gardens))
           "Bangalore" false true []) in
  let no_places :=
    fst (TourismSystemOffline.process_query (Sample.providers true true None)
           "Bangalore" false true []) in
  TourismAIAgent.determine_intent "What is the weather in Bangalore?"
  = {| weather := true; places := false |}
  ∧ free_text = "I found Bangalore, but couldn't retrieve information. Please try again."
  ∧ no_coordinates = "Could not retrieve tourist attractions for Bangalore."
  ∧ no_places = "In Bangalore these are the places you can go, - - - - -" +:+ PyStr.nl
                +:+ "(No tourist attractions found in the database)"
  ∧ ∀ facet,
      let claimed := "Could not retrieve " +:+ facet +:+ " information for Bangalore." in
      free_text ≠ claimed ∧ no_coordinates ≠ claimed ∧ no_places ≠ claimed.
Proof.
  split_and!; [reflexivity..|].
  intros facet claimed. split_and!.
  - intros H. vm_compute in H. discriminate H.
  - apply not_a_facet_sentence.
  - intros H. vm_compute in H. discriminate H.
Qed.

(** C4 (amended).  In the structured [process_query], a Weather facet that
    brings nothing back is answered by "Could not retrieve weather
    information for <place>." in its position, and a Places facet for
    which the coordinates cannot be had by "Could not retrieve tourist
    attractions for <place>."; a Places provider that fails or finds
    nothing gives the rendering of the empty list.  The pieces are joined
    by one space, and the other facet is retrieved and rendered whatever
    became of the first.  In the free-text [process_query] a facet that
    fails leaves no piece: the other facet's rendering is the answer. *)
Theorem failed_facet_piece (w : world) (place_name : string) :
  (∀ log0 log1,
     TourismSystemOffline.get_weather_info w place_name log0 = (None, log1) →
     TourismSystemOffline.process_query w place_name true false log0
     = (weather_failure place_name, log1)
     ∧ ∀ places_info log2,
         TourismSystemOffline.get_places_info w place_name 5 log1 = (places_info, log2) →
         TourismSystemOffline.process_query w place_name true true log0
         = (weather_failure place_name +:+ " "
            +:+ offline_places_piece place_name true places_info, log2))
  ∧ (∀ log0 log1,
       TourismSystemOffline.get_places_info w place_name 5 log0 = (None, log1) →
       TourismSystemOffline.process_query w place_name false true log0
       = (places_failure place_name, log1))
  ∧ (∀ log0 log1 log2 weather_info,
       TourismSystemOffline.get_weather_info w place_name log0 = (weather_info, log1) →
       TourismSystemOffline.get_places_info w place_name 5 log1 = (None, log2) →
       TourismSystemOffline.process_query w place_name true true log0
       = (offline_weather_piece place_name weather_info +:+ " "
          +:+ places_failure place_name, log2))
  ∧ (∀ limit log lat lon log1,
       NominatimClient.get_coordinates w place_name log = (Some (lat, lon), log1) →
       overpass w log1 lat lon = None ∨ overpass w log1 lat lon = Some [] →
       fst (TourismSystemOffline.get_places_info w place_name limit log)
       = Some (places_lead_in place_name +:+ PyStr.nl
               +:+ "(No tourist attractions found in the database)"))
  ∧ (∀ user_input log0 log1 log2 log3 log4 record message weather_info places_info,
       TourismAIAgent.extract_place_name w user_input log0 = (Some place_name, log1) →
       NominatimClient.verify_place_exists w place_name true log1
       = ((true, record, message), log2) →
       (if weather (TourismAIAgent.determine_intent user_input)
        then WeatherAgent.get_weather_info w place_name else ret None) log2
       = (weather_info, log3) →
       (if places (TourismAIAgent.determine_intent user_input)
        then PlacesAgent.get_places_info w place_name 5 else ret None) log3
       = (places_info, log4) →
       (weather_info = None → ∀ info, places_info = Some info →
        TourismAIAgent.process_query w user_input log0 = (info, log4))
       ∧ (places_info = None → ∀ sentence, weather_info = Some sentence →
          TourismAIAgent.process_query w user_input log0 = (sentence, log4))).
Proof.
  split_and!.
  - intros log0 log1 Hw. split.
    + by rewrite (offline_answer_weather _ _ _ _ _ Hw).
    + intros places_info log2 Hp. by rewrite (offline_answer_both _ _ _ _ _ _ _ Hw Hp).
  - intros log0 log1 Hp. by rewrite (offline_answer_places _ _ _ _ _ Hp).
  - intros log0 log1 log2 weather_info Hw Hp.
    by rewrite (offline_answer_both _ _ _ _ _ _ _ Hw Hp).
  - intros limit log lat lon log1 Hc Ho. rewrite offline_places_info_eq.
    by rewrite (places_info_empty _ _ _ _ _ _ _ Hc Ho).
  - intros user_input log0 log1 log2 log3 log4 record message weather_info places_info
      Hextract Hverify Hw Hp.
    rewrite (agent_answer_run _ _ _ _ _ _ _ _ Hextract Hverify _ _ _ _ Hw Hp).
    split; [intros -> info -> | intros -> sentence ->]; done.
Qed.

Lemma failed_facet_piece_witness :
  TourismSystemOffline.process_query (Sample.providers true false (Some Sample.gardens))
    "Bangalore" true false []
  = ("Could not retrieve weather information for Bangalore.",
     [Geocode "Bangalore" false (Some [Sample.bangalore]);
      Forecast (13 # 1)%Q (155 # 2)%Q None])
  ∧ ∀ places_info log2,
      TourismSystemOffline.get_places_info (Sample.providers true false (Some Sample.gardens))
        "Bangalore" 5
        [Geocode "Bangalore" false (Some [Sample.bangalore]);
         Forecast (13 # 1)%Q (155 # 2)%Q None]
      = (places_info, log2) →
      TourismSystemOffline.process_query (Sample.providers true false (Some Sample.gardens))
        "Bangalore" true true []
      = (weather_failure "Bangalore" +:+ " "
         +:+ offline_places_piece "Bangalore" true places_info, log2).
Proof.
  apply (proj1 (failed_facet_piece (Sample.providers true false (Some Sample.gardens))
                  "Bangalore") []).
  reflexivity.
Defined.

Example weather_down_places_up :
  fst (TourismSystemOffline.process_query (Sample.providers true false (Some Sample.gardens))
         "Bangalore" true true [])
  = "Could not retrieve weather information for Bangalore. And these are the places you can go: - - - - -"
    +:+ PyStr.nl +:+ "Lalbagh" +:+ PyStr.nl +:+ "Cubbon Park".
Proof. vm_compute. reflexivity. Qed.

(** ** Every facet fails *)

(** C5, as worded, fails in the structured entry point: with both facets
    asked for and the geocoder unreachable the answer is the two failure
    sentences one after the other, not the generic sentence. *)
Lemma total_failure_concatenates :
  let answer :=
    fst (TourismSystemOffline.process_query (Sample.providers false true None)
           "Bangalore" true true []) in
  answer = "Could not retrieve weather information for Bangalore. Could not retrieve tourist attractions for Bangalore."
  ∧ answer = weather_failure "Bangalore" +:+ " " +:+ places_failure "Bangalore"
  ∧ answer ≠ "Could not retrieve information for Bangalore. Please try again.".
Proof. split_and!; [reflexivity | reflexivity | intros H; vm_compute in H; discriminate H]. Qed.

(** C5 (amended).  In the free-text [process_query], for a place that was
    extracted and accepted, the answer is the one sentence
    "I found <place>, but couldn't retrieve information. Please try
    again." exactly when no facet that was asked for returns anything.
    Places returns nothing only when the coordinates of the place cannot
    be had (a Places provider that fails or finds nothing gives the
    rendering of the empty list, which is an answer); Weather returns
    nothing when the coordinates or the weather data cannot be had.  In
    the structured [process_query] every facet asked for that returns
    nothing gives its own failure sentence, the two joined by a space when
    both return nothing, and the generic sentence "Could not retrieve
    information for <place>. Please try again." is the answer only when
    no facet is asked for. *)
Theorem total_failure_answer (w : world) (place_name : string) :
  (∀ user_input log0 log1 log2 log3 log4 record message weather_info places_info,
     TourismAIAgent.extract_place_name w user_input log0 = (Some place_name, log1) →
     NominatimClient.verify_place_exists w place_name true log1
     = ((true, record, message), log2) →
     (if weather (TourismAIAgent.determine_intent user_input)
      then WeatherAgent.get_weather_info w place_name else ret None) log2
     = (weather_info, log3) →
     (if places (TourismAIAgent.determine_intent user_input)
      then PlacesAgent.get_places_info w place_name 5 else ret None) log3
     = (places_info, log4) →
     snd (TourismAIAgent.process_query w user_input log0) = log4
     ∧ (fst (TourismAIAgent.process_query w user_input log0)
        = "I found " +:+ place_name +:+ ", but couldn't retrieve information. Please try again."
        ↔ weather_info = None ∧ places_info = None))
  ∧ (∀ limit log,
       (fst (PlacesAgent.get_places_info w place_name limit log) = None
        ↔ fst (NominatimClient.get_coordinates w place_name log) = None)
       ∧ (fst (TourismSystemOffline.get_places_info w place_name limit log) = None
          ↔ fst (NominatimClient.get_coordinates w place_name log) = None))
  ∧ (∀ log,
       let coords := NominatimClient.get_coordinates w place_name log in
       let nothing :=
         match fst coords with
         | None => True
         | Some (lat, lon) => fst (OpenMeteoClient.get_weather w lat lon (snd coords)) = None
         end in
       (fst (WeatherAgent.get_weather_info w place_name log) = None ↔ nothing)
       ∧ (fst (TourismSystemOffline.get_weather_info w place_name log) = None ↔ nothing))
  ∧ (∀ log0 log1 log2,
       TourismSystemOffline.get_weather_info w place_name log0 = (None, log1) →
       TourismSystemOffline.get_places_info w place_name 5 log1 = (None, log2) →
       TourismSystemOffline.process_query w place_name true true log0
       = (weather_failure place_name +:+ " " +:+ places_failure place_name, log2))
  ∧ (∀ log0 log1,
       TourismSystemOffline.get_weather_info w place_name log0 = (None, log1) →
       TourismSystemOffline.process_query w place_name true false log0
       = (weather_failure place_name, log1))
  ∧ (∀ log0 log1,
       TourismSystemOffline.get_places_info w place_name 5 log0 = (None, log1) →
       TourismSystemOffline.process_query w place_name false true log0
       = (places_failure place_name, log1))
  ∧ (∀ get_weather get_places log0,
       fst (TourismSystemOffline.process_query w place_name get_weather get_places log0)
       = "Could not retrieve information for " +:+ place_name +:+ ". Please try again."
       → get_weather = false ∧ get_places = false)
  ∧ (∀ log0,
       TourismSystemOffline.process_query w place_name false false log0
       = ("Could not retrieve information for " +:+ place_name +:+ ". Please try again.",
          log0)).
Proof.
  assert (∀ limit log,
            fst (PlacesAgent.get_places_info w place_name limit log) = None
            ↔ fst (NominatimClient.get_coordinates w place_name log) = None) as Hplaces.
  { intros limit log. unfold PlacesAgent.get_places_info, bind.
    destruct (NominatimClient.get_coordinates w place_name log) as [[[lat lon]|] log1];
      [|done].
    cbn [fst]. split; [|done].
    destruct (OverpassClient.get_tourist_attractions w lat lon limit log1) as [[|? ?] ?];
      done. }
  assert (∀ log,
            let coords := NominatimClient.get_coordinates w place_name log in
            fst (WeatherAgent.get_weather_info w place_name log) = None
            ↔ match fst coords with
              | None => True
              | Some (lat, lon) =>
                  fst (OpenMeteoClient.get_weather w lat lon (snd coords)) = None
              end) as Hweather.
  { intros log. cbv zeta. unfold WeatherAgent.get_weather_info, bind.
    destruct (NominatimClient.get_coordinates w place_name log) as [[[lat lon]|] log1];
      [|done].
    cbn [fst snd].
    destruct (OpenMeteoClient.get_weather w lat lon log1) as [[data|] log2]; done. }
  split_and!.
  - intros user_input log0 log1 log2 log3 log4 record message weather_info places_info
      Hextract Hverify Hw Hp.
    rewrite (agent_answer_run _ _ _ _ _ _ _ _ Hextract Hverify _ _ _ _ Hw Hp).
    split; [done|]. cbn [fst]. split; [|by intros [-> ->]].
    intros H. destruct weather_info as [sentence|].
    + destruct (weather _); [|by inversion Hw].
      apply weather_info_shape in Hw as [data ->].
      destruct places_info; vm_compute in H; discriminate H.
    + destruct places_info as [info|]; [|done].
      destruct (places _); [|by inversion Hp].
      apply places_info_shape in Hp as (body & -> & _).
      vm_compute in H. discriminate H.
  - intros limit log. split; [apply Hplaces|].
    rewrite offline_places_info_eq. apply Hplaces.
  - intros log coords nothing. split; [apply Hweather|].
    rewrite offline_weather_info_eq. apply Hweather.
  - intros log0 log1 log2 Hw Hp. by rewrite (offline_answer_both _ _ _ _ _ _ _ Hw Hp).
  - intros log0 log1 Hw. by rewrite (offline_answer_weather _ _ _ _ _ Hw).
  - intros log0 log1 Hp. by rewrite (offline_answer_places _ _ _ _ _ Hp).
  - intros get_weather get_places log0 H.
    destruct (TourismSystemOffline.get_weather_info w place_name log0)
      as [weather_info log1] eqn:Hw.
    destruct (TourismSystemOffline.get_places_info w place_name 5 log1)
      as [places_info log2] eqn:Hp.
    destruct (TourismSystemOffline.get_places_info w place_name 5 log0)
      as [places_alone log3] eqn:Hp0.
    destruct get_weather, get_places; [| | |done].
    + rewrite (offline_answer_both _ _ _ _ _ _ _ Hw Hp) in H.
      destruct weather_info as [sentence|];
        [apply weather_info_shape in Hw as [data ->]|]; vm_compute in H; discriminate H.
    + rewrite (offline_answer_weather _ _ _ _ _ Hw) in H.
      destruct weather_info as [sentence|];
        [apply weather_info_shape in Hw as [data ->]|]; vm_compute in H; discriminate H.
    + rewrite (offline_answer_places _ _ _ _ _ Hp0) in H.
      destruct places_alone as [info|];
        [apply places_info_shape in Hp0 as (body & -> & _)|]; vm_compute in H; discriminate H.
  - intros log0. apply offline_answer_none.
Qed.

Lemma total_failure_answer_witness :
  snd (TourismAIAgent.process_query (Sample.providers true false (Some Sample.gardens))
         "What is the weather in Bangalore?" [])
  = [Chat (ExtractPlace "What is the weather in Bangalore?") (Some "Bangalore");
     Geocode "Bangalore" true (Some [Sample.bangalore]);
     Geocode "Bangalore" false (Some [Sample.bangalore]);
     Forecast (13 # 1)%Q (155 # 2)%Q None]
  ∧ fst (TourismAIAgent.process_query (Sample.providers true false (Some Sample.gardens))
           "What is the weather in Bangalore?" [])
    = "I found Bangalore, but couldn't retrieve information. Please try again.".
Proof.
  destruct (proj1 (total_failure_answer (Sample.providers true false (Some Sample.gardens))
                     "Bangalore")
              "What is the weather in Bangalore?" []
              [Chat (ExtractPlace "What is the weather in Bangalore?") (Some "Bangalore")]
              [Chat (ExtractPlace "What is the weather in Bangalore?") (Some "Bangalore");
               Geocode "Bangalore" true (Some [Sample.bangalore])]
              [Chat (ExtractPlace "What is the weather in Bangalore?") (Some "Bangalore");
               Geocode "Bangalore" true (Some [Sample.bangalore]);
               Geocode "Bangalore" false (Some [Sample.bangalore]);
               Forecast (13 # 1)%Q (155 # 2)%Q None]
              [Chat (ExtractPlace "What is the weather in Bangalore?") (Some "Bangalore");
               Geocode "Bangalore" true (Some [Sample.bangalore]);
               Geocode "Bangalore" false (Some [Sample.bangalore]);
               Forecast (13 # 1)%Q (155 # 2)%Q None]
              (NominatimClient.read_place_details "Bangalore" (Some [Sample.bangalore]))
              "Found Bangalore" None None) as [Hlog Hanswer].
  - reflexivity.
  - reflexivity.
  - reflexivity.
  - reflexivity.
  - split; [exact Hlog | by apply Hanswer].
Defined.

(** ** The order of the requests *)

Section Logs.

Lemma guarded_quiet log : quiet log → guarded log.
Proof.
  intros Hq before e after -> He.
  apply Forall_app in Hq as [_ Hq]. apply Forall_cons in Hq as [Hq _]. congruence.
Qed.

Lemma guarded_after before_ v rest :
  quiet before_ → accepted v → guarded (before_ ++ v :: rest).
Proof.
  intros Hq Hv before e after Heq He.
  assert (facet_call v = false) as Hvq by (by destruct Hv as (? & ? & ? & -> & _)).
  apply app_eq_inv in Heq as [(k & Hb & Hk) | (k & Hb & Hk)].
  - destruct k as [|e' k]; simplify_eq/=; [congruence|].
    apply Forall_app in Hq as [_ Hq]. apply Forall_cons in Hq as [Hq _]. congruence.
  - destruct k as [|v' k]; simplify_eq/=; [congruence|].
    exists v'. split; [|done]. apply elem_of_app. right. by left.
Qed.

Lemma guarded_then_quiet log rest : guarded log → quiet rest → guarded (log ++ rest).
Proof.
  intros Hg Hq before e after Heq He.
  apply app_eq_inv in Heq as [(k & Hb & Hk) | (k & Hb & Hk)].
  - destruct k as [|e' k]; simplify_eq/=.
    + apply Forall_cons in Hq as [Hq _]. congruence.
    + by eapply Hg.
  - subst. apply Forall_app in Hq as [_ Hq]. apply Forall_cons in Hq as [Hq _]. congruence.
Qed.

Lemma guarded_unaccepted log : guarded log → (∀ v, v ∈ log → ¬ accepted v) → quiet log.
Proof.
  intros Hg Hno. apply Forall_forall. intros e He.
  destruct (facet_call e) eqn:Hf; [|done].
  apply list_elem_of_split in He as (before & after & ->).
  destruct (Hg before e after eq_refl Hf) as (v & Hv & Hacc).
  destruct (Hno v); [|done]. apply elem_of_app. by left.
Qed.

Variable w : world.

Lemma weather_info_log place_name log :
  ∃ new, snd (WeatherAgent.get_weather_info w place_name log) = log ++ new.
Proof.
  unfold WeatherAgent.get_weather_info, bind. rewrite get_coordinates_run.
  unfold OpenMeteoClient.get_weather, OpenMeteoClient.fetch, bind, ret.
  repeat case_match; simplify_eq/=; rewrite <-?app_assoc; eauto.
Qed.

Lemma places_info_log place_name limit log :
  ∃ new, snd (PlacesAgent.get_places_info w place_name limit log) = log ++ new.
Proof.
  unfold PlacesAgent.get_places_info, bind. rewrite get_coordinates_run.
  unfold OverpassClient.get_tourist_attractions, OverpassClient.post, bind, ret.
  repeat case_match; simplify_eq/=; rewrite <-?app_assoc; eauto.
Qed.

Lemma offline_query_log place_name get_weather get_places log :
  ∃ new, snd (TourismSystemOffline.process_query w place_name get_weather get_places log)
         = log ++ new.
Proof.
  destruct (TourismSystemOffline.get_weather_info w place_name log)
    as [weather_info log1] eqn:Hw.
  destruct (TourismSystemOffline.get_places_info w place_name 5 log1)
    as [places_info log2] eqn:Hp.
  destruct (TourismSystemOffline.get_places_info w place_name 5 log)
    as [places_alone log3] eqn:Hp0.
  destruct (weather_info_log place_name log) as [new1 H1].
  destruct (places_info_log place_name 5 log1) as [new2 H2].
  destruct (places_info_log place_name 5 log) as [new3 H3].
  rewrite <-offline_weather_info_eq, Hw in H1.
  rewrite <-offline_places_info_eq, Hp in H2.
  rewrite <-offline_places_info_eq, Hp0 in H3. simpl in *. subst.
  destruct get_weather, get_places.
  - rewrite (offline_answer_both _ _ _ _ _ _ _ Hw Hp). simpl.
    rewrite <-app_assoc. eauto.
  - rewrite (offline_answer_weather _ _ _ _ _ Hw). simpl. eauto.
  - rewrite (offline_answer_places _ _ _ _ _ Hp0). simpl. eauto.
  - exists []. by rewrite app_nil_r.
Qed.

(** The free-text [process_query]: the chat that extracts the place, then
    the verification, then either the apology or the facets. *)
Lemma agent_query_log user_input log :
  let asked := Chat (ExtractPlace user_input) (openai w log (ExtractPlace user_input)) in
  match fst (TourismAIAgent.extract_place_name w user_input log) with
  | None => snd (TourismAIAgent.process_query w user_input log) = log ++ [asked]
  | Some place_name =>
      let reply := nominatim w (log ++ [asked]) place_name true in
      let verified := Geocode place_name true reply in
      let verdict := NominatimClient.judge true
                       (NominatimClient.read_place_details place_name reply) in
      if fst (fst verdict) then
        ∃ rest, snd (TourismAIAgent.process_query w user_input log)
                = log ++ [asked; verified] ++ rest
      else
        ∃ sorry, snd (TourismAIAgent.process_query w user_input log)
                 = log ++ [asked; verified; Chat (Apologise place_name) sorry]
  end.
Proof.
  intros asked.
  destruct (TourismAIAgent.extract_place_name w user_input log)
    as [[place_name|] log1] eqn:Hextract; simpl.
  - pose proof Hextract as Hlog. rewrite extract_place_name_run in Hlog.
    apply (f_equal snd) in Hlog. simpl in Hlog. fold asked in Hlog. subst log1.
    pose proof (verify_run w place_name true (log ++ [asked])) as Hverify.
    destruct (NominatimClient.judge true _) as [[exists_ record] message] eqn:Hjudge.
    destruct exists_; simpl.
    + destruct ((if weather (TourismAIAgent.determine_intent user_input)
                 then WeatherAgent.get_weather_info w place_name else ret None)
                  ((log ++ [asked])
                   ++ [Geocode place_name true (nominatim w (log ++ [asked]) place_name true)]))
        as [weather_info log3] eqn:Hw.
      destruct ((if places (TourismAIAgent.determine_intent user_input)
                 then PlacesAgent.get_places_info w place_name 5 else ret None) log3)
        as [places_info log4] eqn:Hp.
      rewrite (agent_answer_run _ _ _ _ _ _ _ _ Hextract Hverify _ _ _ _ Hw Hp). simpl.
      assert (∃ new, log3 = ((log ++ [asked])
                   ++ [Geocode place_name true (nominatim w (log ++ [asked]) place_name true)])
                   ++ new) as [new1 ->].
      { destruct (weather _).
        - destruct (weather_info_log place_name ((log ++ [asked])
                   ++ [Geocode place_name true (nominatim w (log ++ [asked]) place_name true)]))
            as [new Hnew].
          rewrite Hw in Hnew. eauto.
        - unfold ret in Hw. simplify_eq. exists []. by rewrite app_nil_r. }
      assert (∃ new, log4 = (((log ++ [asked])
                   ++ [Geocode place_name true (nominatim w (log ++ [asked]) place_name true)])
                   ++ new1) ++ new) as [new2 ->].
      { destruct (places _).
        - destruct (places_info_log place_name 5 (((log ++ [asked])
                   ++ [Geocode place_name true (nominatim w (log ++ [asked]) place_name true)])
                   ++ new1)) as [new Hnew].
          rewrite Hp in Hnew. eauto.
        - unfold ret in Hp. simplify_eq. exists []. by rewrite app_nil_r. }
      exists (new1 ++ new2). by rewrite <-!app_assoc.
    + unfold TourismAIAgent.process_query.
      rewrite (bind_run _ _ _ _ _ Hextract).
      rewrite (extract_place_name_nonempty _ _ _ _ _ Hextract).
      rewrite (bind_run _ _ _ _ _ Hverify).
      change (negb false) with true. cbv beta iota zeta.
      unfold TourismAIAgent.chat, bind, ret. simpl.
      eexists. by rewrite <-!app_assoc.
  - unfold TourismAIAgent.process_query.
    rewrite (bind_run _ _ _ _ _ Hextract).
    rewrite extract_place_name_run in Hextract. by simplify_eq.
Qed.

Lemma agent_query_guarded user_input log :
  ∃ new, snd (TourismAIAgent.process_query w user_input log) = log ++ new ∧ guarded new.
Proof.
  pose proof (agent_query_log user_input log) as H. cbv zeta in H.
  destruct (fst (TourismAIAgent.extract_place_name w user_input log)) as [place_name|].
  - match type of H with
    | context [NominatimClient.judge true (NominatimClient.read_place_details _ ?r)] =>
        set (reply := r) in *
    end.
    destruct (NominatimClient.read_place_details place_name reply) as [details|] eqn:Hread.
    + pose proof (judge_some true details) as Hsome.
      destruct (NominatimClient.judge true (Some details))
        as [[exists_ record] message] eqn:Hjudge.
      simpl in Hsome. subst record. destruct exists_; simpl in H.
      * destruct H as [rest ->]. eexists. split; [done|].
        apply (guarded_after [_]); [by repeat constructor|].
        exists place_name, reply, details. split; [done|]. by rewrite Hread, Hjudge.
      * destruct H as [sorry ->]. eexists. split; [done|].
        apply guarded_quiet. by repeat constructor.
    + simpl in H. destruct H as [sorry ->]. eexists. split; [done|].
      apply guarded_quiet. by repeat constructor.
  - rewrite H. eexists. split; [done|]. apply guarded_quiet. by repeat constructor.
Qed.
End Logs.

Section HandlerLogs.
Variable w : world.
Variable has_openai : bool.

Lemma translate_log text target_lang keep log :
  ∃ new, snd (App.translate w text target_lang keep log) = log ++ new ∧ quiet new.
Proof.
  unfold App.translate. destruct (_ || _); simpl.
  - exists []. split; [by rewrite app_nil_r | constructor].
  - eexists. split; [done | by repeat constructor].
Qed.

Lemma error_response_log place_name target_lang use_ai log :
  ∃ new, snd (App.generate_error_response w has_openai place_name target_lang use_ai log)
         = log ++ new ∧ quiet new.
Proof.
  unfold App.generate_error_response, bind.
  destruct (use_ai && has_openai); unfold TourismAIAgent.chat, ret; simpl.
  - destruct (negb _).
    + edestruct translate_log as (new & Hlog & Hq). rewrite Hlog. eexists.
      split; [by rewrite <-app_assoc | by constructor].
    + simpl. eexists. split; [done | by repeat constructor].
  - destruct (negb _).
    + apply translate_log.
    + exists []. split; [by rewrite app_nil_r | constructor].
Qed.

Lemma maybe_translate_log (condition : bool) response target_lang keep log :
  ∃ new, snd ((if condition then App.translate w response target_lang keep
               else ret response) log) = log ++ new ∧ quiet new.
Proof.
  destruct condition; [apply translate_log|].
  exists []. split; [by rewrite app_nil_r | constructor].
Qed.

(** The handler of [/api/query]: in offline mode the verification is the
    first request, and the facets are asked for only if it accepts. *)
Lemma handler_guarded data log :
  ∃ new, snd (App.query w has_openai data log) = log ++ new ∧ guarded new.
Proof.
  assert (∃ new : list event, log = log ++ new ∧ guarded new) as Hnone.
  { exists []. split; [by rewrite app_nil_r | apply guarded_quiet; constructor]. }
  unfold App.query. cbv zeta.
  destruct (_ && _); [done|].
  destruct (String.eqb (App.qd_mode data) "online").
  - destruct (negb has_openai); [done|].
    destruct (String.eqb (App.qd_user_input data) ""); [done|].
    unfold bind.
    destruct (agent_query_guarded w (App.qd_user_input data) log) as (new1 & Hlog & Hg).
    destruct (TourismAIAgent.process_query w (App.qd_user_input data) log)
      as [response log1]. simpl in Hlog. subst log1.
    destruct (maybe_translate_log (negb (String.eqb (App.qd_language data) "en")) response
                (App.qd_language data) None (log ++ new1)) as (new2 & Hlog2 & Hq).
    destruct ((if negb (String.eqb (App.qd_language data) "en")
               then App.translate w response (App.qd_language data) None
               else ret response) (log ++ new1)) as [response' log2].
    simpl in Hlog2. subst log2. cbn [snd ret]. exists (new1 ++ new2).
    split; [by rewrite app_assoc | by apply guarded_then_quiet].
  - destruct (String.eqb (PyStr.strip (App.qd_place data)) ""); [done|].
    unfold bind. rewrite verify_run.
    set (place_name := PyStr.strip (App.qd_place data)).
    set (reply := nominatim w log place_name true).
    destruct (NominatimClient.read_place_details place_name reply) as [details|] eqn:Hread.
    + pose proof (judge_some true details) as Hsome.
      destruct (NominatimClient.judge true (Some details))
        as [[exists_ record] message] eqn:Hjudge.
      simpl in Hsome. subst record. destruct exists_; simpl.
      * destruct (offline_query_log w place_name (App.qd_weather data) (App.qd_places data)
                    (log ++ [Geocode place_name true reply])) as (new1 & Hlog).
        destruct (TourismSystemOffline.process_query w place_name _ _ _)
          as [response log1]. simpl in Hlog. subst log1.
        destruct (maybe_translate_log (negb (String.eqb (App.qd_language data) "en"))
                    response (App.qd_language data) (Some place_name)
                    ((log ++ [Geocode place_name true reply]) ++ new1))
          as (new2 & Hlog2 & Hq).
        destruct ((if negb (String.eqb (App.qd_language data) "en")
                   then App.translate w response (App.qd_language data) (Some place_name)
                   else ret response) ((log ++ [Geocode place_name true reply]) ++ new1))
          as [response' log2].
        simpl in Hlog2. subst log2. cbn [snd ret]. exists ([Geocode place_name true reply] ++ new1 ++ new2).
        split; [by rewrite <-!app_assoc|].
        apply (guarded_after []); [constructor|].
        exists place_name, reply, details. split; [done|]. by rewrite Hread, Hjudge.
      * destruct (error_response_log place_name (App.qd_language data) has_openai
                    (log ++ [Geocode place_name true reply])) as (new & Hlog & Hq).
        destruct (App.generate_error_response w has_openai place_name
                    (App.qd_language data) has_openai (log ++ [Geocode place_name true reply]))
          as [error_message log1].
        simpl in Hlog. subst log1. cbn [snd ret]. exists (Geocode place_name true reply :: new).
        split; [by rewrite <-app_assoc|]. apply guarded_quiet. by constructor.
    + simpl.
      destruct (error_response_log place_name (App.qd_language data) has_openai
                  (log ++ [Geocode place_name true reply])) as (new & Hlog & Hq).
      destruct (App.generate_error_response w has_openai place_name
                  (App.qd_language data) has_openai (log ++ [Geocode place_name true reply]))
        as [error_message log1].
      simpl in Hlog. subst log1. cbn [snd ret]. exists (Geocode place_name true reply :: new).
      split; [by rewrite <-app_assoc|]. apply guarded_quiet. by constructor.
Qed.
End HandlerLogs.

(** ** Verification before the facets *)

(** C6, as worded, fails for the structured [process_query]: it verifies
    nothing itself.  Asked for the places of Smallville, which the strict
    verification rejects, it calls the Places provider; its log holds no
    verification at all. *)
Lemma structured_query_unverified :
  let log := snd (TourismSystemOffline.process_query Sample.all_up "Smallville" false true []) in
  log = [Geocode "Smallville" false (Some [Sample.tiny "Smallville" "hamlet"]);
         Overpass (40 # 1)%Q (-75 # 1)%Q (Some Sample.gardens)]
  ∧ ¬ guarded log
  ∧ ∃ record,
      outcome (fst (NominatimClient.verify_place_exists Sample.all_up "Smallville" true []))
      = LowConfidence record.
Proof.
  split_and!.
  - reflexivity.
  - intros Hg.
    destruct (Hg [Geocode "Smallville" false (Some [Sample.tiny "Smallville" "hamlet"])]
                (Overpass (40 # 1)%Q (-75 # 1)%Q (Some Sample.gardens)) [] eq_refl eq_refl)
      as (v & Hv & q & reply & record & -> & _).
    apply list_elem_of_singleton in Hv. discriminate Hv.
  - eexists. reflexivity.
Qed.

(** C6 (amended).  In the free-text [process_query] and in the handler of
    [/api/query], which verifies before it calls the structured
    [process_query], every Weather or Places request comes after a strict
    verification of this query that accepted the place: the verification
    has its answer before any facet provider is asked, and when it does
    not accept, or no place could be extracted, no facet provider is
    asked at all. *)
Theorem facet_calls_follow_verification (w : world) :
  (∀ user_input log,
     ∃ new, snd (TourismAIAgent.process_query w user_input log) = log ++ new ∧ guarded new)
  ∧ (∀ has_openai data log,
       ∃ new, snd (App.query w has_openai data log) = log ++ new ∧ guarded new)
  ∧ (∀ user_input log new,
       snd (TourismAIAgent.process_query w user_input log) = log ++ new →
       (∀ v, v ∈ new → ¬ accepted v) → quiet new)
  ∧ (∀ has_openai data log new,
       snd (App.query w has_openai data log) = log ++ new →
       (∀ v, v ∈ new → ¬ accepted v) → quiet new).
Proof.
  split_and!.
  - apply agent_query_guarded.
  - intros has_openai data log. apply handler_guarded.
  - intros user_input log new Hlog Hno.
    destruct (agent_query_guarded w user_input log) as (new' & Hlog' & Hg).
    rewrite Hlog in Hlog'. apply app_inv_head in Hlog' as <-. by apply guarded_unaccepted.
  - intros has_openai data log new Hlog Hno.
    destruct (handler_guarded w has_openai data log) as (new' & Hlog' & Hg).
    rewrite Hlog in Hlog'. apply app_inv_head in Hlog' as <-. by apply guarded_unaccepted.
Qed.

Lemma facet_calls_follow_verification_witness :
  quiet [Chat (ExtractPlace "What is the weather in Bangalore?") (Some "Bangalore");
         Geocode "Bangalore" true None;
         Chat (Apologise "Bangalore") (Some "Sorry, I don't know this place exists.")].
Proof.
  apply (proj1 (proj2 (proj2 (facet_calls_follow_verification
                                (Sample.providers false true None))))
           "What is the weather in Bangalore?" []).
  - reflexivity.
  - intros v Hv (q & reply & record & -> & Hout).
    repeat (apply elem_of_cons in Hv as [Hv|Hv]; [simplify_eq|]).
    by apply elem_of_nil in Hv.
Defined.

(** ** The name in the renderings *)

Lemma coordinates_read (reply reply' : option (list nominatim_result)) :
  coordinates_of reply = coordinates_of reply' →
  match reply with
  | Some (first :: _) =>
      match nr_lat first, nr_lon first with
      | Some lat, Some lon => Some (lat, lon)
      | _, _ => None
      end
  | _ => None
  end
  = match reply' with
    | Some (first :: _) =>
        match nr_lat first, nr_lon first with
        | Some lat, Some lon => Some (lat, lon)
        | _, _ => None
        end
    | _ => None
    end.
Proof.
  unfold coordinates_of.
  destruct reply as [[|first rest]|], reply' as [[|first' rest']|]; intros H;
    simplify_eq/=; try done.
  by repeat match goal with H : _ = _ |- _ => rewrite H end.
Qed.

Lemma weather_info_same_coordinates w w' place_name log log' :
  coordinates_of (nominatim w log place_name false)
  = coordinates_of (nominatim w' log' place_name false) →
  (∀ lat lon,
     open_meteo w (log ++ [Geocode place_name false (nominatim w log place_name false)]) lat lon
     = open_meteo w' (log' ++ [Geocode place_name false (nominatim w' log' place_name false)])
         lat lon) →
  fst (WeatherAgent.get_weather_info w place_name log)
  = fst (WeatherAgent.get_weather_info w' place_name log').
Proof.
  intros Hc Hm. unfold WeatherAgent.get_weather_info, bind.
  rewrite !get_coordinates_run, (coordinates_read _ _ Hc).
  destruct (match nominatim w' log' place_name false with Some (_ :: _) => _ | _ => None end)
    as [[lat lon]|]; [|done].
  unfold OpenMeteoClient.get_weather, OpenMeteoClient.fetch, bind, ret.
  rewrite Hm. by repeat case_match.
Qed.

Lemma places_info_same_coordinates w w' place_name limit log log' :
  coordinates_of (nominatim w log place_name false)
  = coordinates_of (nominatim w' log' place_name false) →
  (∀ lat lon,
     overpass w (log ++ [Geocode place_name false (nominatim w log place_name false)]) lat lon
     = overpass w' (log' ++ [Geocode place_name false (nominatim w' log' place_name false)])
         lat lon) →
  fst (PlacesAgent.get_places_info w place_name limit log)
  = fst (PlacesAgent.get_places_info w' place_name limit log').
Proof.
  intros Hc Hm. unfold PlacesAgent.get_places_info, bind.
  rewrite !get_coordinates_run, (coordinates_read _ _ Hc).
  destruct (match nominatim w' log' place_name false with Some (_ :: _) => _ | _ => None end)
    as [[lat lon]|]; [|done].
  unfold OverpassClient.get_tourist_attractions, OverpassClient.post, bind, ret.
  rewrite Hm. by repeat case_match.
Qed.

(** C10: the weather sentence and the places listing, of agents.py and of
    offline_main.py alike, name the place by the [place_name] they are
    called with: they open with "In <place_name> ".  Of the geocoder's
    answer they read the coordinates only, so that two answers with the
    same coordinates give the same text whatever names they resolve to.
    The resolved display name goes into the message of the verification,
    "Found <display_name>". *)
Theorem renderings_name_the_query (w : world) (place_name : string) :
  (∀ log text log',
     WeatherAgent.get_weather_info w place_name log = (Some text, log')
     ∨ TourismSystemOffline.get_weather_info w place_name log = (Some text, log') →
     ∃ data : weather_data,
       text = weather_template place_name (py_str (wd_temperature data))
                (py_str (wd_unit data)) (py_str (wd_precipitation_probability data)))
  ∧ (∀ limit log text log',
       PlacesAgent.get_places_info w place_name limit log = (Some text, log')
       ∨ TourismSystemOffline.get_places_info w place_name limit log = (Some text, log') →
       ∃ body, text = places_lead_in place_name +:+ PyStr.nl +:+ body)
  ∧ (∀ w' log log',
       coordinates_of (nominatim w log place_name false)
       = coordinates_of (nominatim w' log' place_name false) →
       (∀ lat lon,
          open_meteo w (log ++ [Geocode place_name false (nominatim w log place_name false)])
            lat lon
          = open_meteo w' (log' ++ [Geocode place_name false (nominatim w' log' place_name false)])
              lat lon) →
       fst (WeatherAgent.get_weather_info w place_name log)
       = fst (WeatherAgent.get_weather_info w' place_name log')
       ∧ fst (TourismSystemOffline.get_weather_info w place_name log)
         = fst (TourismSystemOffline.get_weather_info w' place_name log'))
  ∧ (∀ w' limit log log',
       coordinates_of (nominatim w log place_name false)
       = coordinates_of (nominatim w' log' place_name false) →
       (∀ lat lon,
          overpass w (log ++ [Geocode place_name false (nominatim w log place_name false)])
            lat lon
          = overpass w' (log' ++ [Geocode place_name false (nominatim w' log' place_name false)])
              lat lon) →
       fst (PlacesAgent.get_places_info w place_name limit log)
       = fst (PlacesAgent.get_places_info w' place_name limit log')
       ∧ fst (TourismSystemOffline.get_places_info w place_name limit log)
         = fst (TourismSystemOffline.get_places_info w' place_name limit log'))
  ∧ (∀ strict log record message log',
       NominatimClient.verify_place_exists w place_name strict log
       = ((true, Some record, message), log') →
       message = "Found " +:+ pd_display_name record).
Proof.
  split_and!.
  - intros log text log' [H|H]; by eapply weather_info_shape.
  - intros limit log text log' [H|H]; apply places_info_shape in H as (body & -> & _); eauto.
  - intros w' log log' Hc Hm. rewrite offline_weather_info_eq.
    split; by apply weather_info_same_coordinates.
  - intros w' limit log log' Hc Hm. rewrite offline_places_info_eq.
    split; by apply places_info_same_coordinates.
  - intros strict log record message log'. rewrite verify_run. intros H.
    apply (f_equal fst) in H. simpl in H.
    destruct (NominatimClient.read_place_details _ _) as [details|]; [|done].
    pose proof (judge_accepts strict details) as Hacc.
    pose proof (judge_some strict details) as Hsome.
    rewrite H in Hacc, Hsome. simpl in *. simplify_eq.
    specialize (Hacc eq_refl). by simplify_eq.
Qed.

Lemma renderings_name_the_query_witness :
  ∃ data : weather_data,
    "In Bangalore it's currently 24°C with a chance of 10% to rain."
    = weather_template "Bangalore" (py_str (wd_temperature data))
        (py_str (wd_unit data)) (py_str (wd_precipitation_probability data)).
Proof.
  apply (proj1 (renderings_name_the_query Sample.all_up "Bangalore") []
           "In Bangalore it's currently 24°C with a chance of 10% to rain."
           [Geocode "Bangalore" false (Some [Sample.bangalore]);
            Forecast (13 # 1)%Q (155 # 2)%Q (Some Sample.mild)]).
  left. reflexivity.
Defined.

Example display_name_unused :
  fst (TourismSystemOffline.process_query
         (Sample.providers true true (Some Sample.gardens)) "Smallville" false true [])
  = "In Smallville these are the places you can go, - - - - -"
    +:+ PyStr.nl +:+ "Lalbagh" +:+ PyStr.nl +:+ "Cubbon Park"
  ∧ (nr_display_name <$> Sample.gazetteer "Smallville" ≫= head)
    = Some (Some "Smallville, somewhere").
Proof. split; reflexivity. Qed.

(** ** The scenarios of the specification *)

Example scenario_smallville :
  ∃ record,
    outcome (fst (NominatimClient.verify_place_exists Sample.all_up "Smallville" true []))
    = LowConfidence record
    ∧ outcome (fst (NominatimClient.verify_place_exists Sample.all_up "Smallville" false []))
      = Verified record.
Proof. eexists. split; reflexivity. Qed.

Example scenario_empty_places :
  fst (TourismSystemOffline.process_query (Sample.providers true true (Some []))
         "Bangalore" false true [])
  = "In Bangalore these are the places you can go, - - - - -" +:+ PyStr.nl
    +:+ "(No tourist attractions found in the database)".
Proof. reflexivity. Qed.

Example scenario_weather_down :
  fst (TourismSystemOffline.process_query (Sample.providers true false (Some Sample.gardens))
         "Bangalore" true false [])
  = "Could not retrieve weather information for Bangalore.".
Proof. reflexivity. Qed.

Example agent_total_failure :
  TourismAIAgent.process_query Sample.geocoder_once
    "What is the weather in Bangalore and which places can I visit?" []
  = ("I found Bangalore, but couldn't retrieve information. Please try again.",
     [Chat (ExtractPlace "What is the weather in Bangalore and which places can I visit?")
        (Some "Bangalore");
      Geocode "Bangalore" true (Some [Sample.bangalore]);
      Geocode "Bangalore" false None;
      Geocode "Bangalore" false None]).
Proof. vm_compute. reflexivity. Qed.

(** * Further properties *)

(** ** More on strings *)

Section MoreStringFacts.
Import PyStr.

Lemma lower_upper_char c : lower_char (upper_char c) = lower_char c.
Proof. by destruct c as [[] [] [] [] [] [] [] []]. Qed.

Lemma lower_lower_char c : lower_char (lower_char c) = lower_char c.
Proof. by destruct c as [[] [] [] [] [] [] [] []]. Qed.

Lemma isspace_lower_char c : isspace (lower_char c) = isspace c.
Proof. by destruct c as [[] [] [] [] [] [] [] []]. Qed.

Lemma lower_upper s : lower (upper s) = lower s.
Proof.
  unfold lower, upper. induction s as [|c s IH]; [done|]. simpl.
  by rewrite lower_upper_char, IH.
Qed.

Lemma lower_lower s : lower (lower s) = lower s.
Proof.
  unfold lower. induction s as [|c s IH]; [done|]. simpl.
  by rewrite lower_lower_char, IH.
Qed.

Lemma lower_app s t : lower (s +:+ t) = lower s +:+ lower t.
Proof.
  unfold lower. induction s as [|c s IH]; [done|]. rewrite app_cons. simpl.
  by rewrite IH.
Qed.

Lemma lstrip_suffix s : ∃ pre, s = pre +:+ lstrip s.
Proof.
  induction s as [|c s [pre IH]]; [by exists ""|]. simpl.
  destruct (isspace c); [|by exists ""].
  exists (String c pre). by rewrite app_cons, <-IH.
Qed.

Lemma rstrip_prefix s : ∃ post, s = rstrip s +:+ post.
Proof.
  induction s as [|c s [post IH]]; [by exists ""|]. simpl.
  destruct (rstrip s) as [|d kept] eqn:Hr.
  - destruct (isspace c).
    + by exists (String c s).
    + exists s. done.
  - exists post. by rewrite app_cons, <-IH.
Qed.

Lemma strip_substring s : substring_of (strip s) s.
Proof.
  unfold strip. destruct (lstrip_suffix s) as [pre Hpre].
  destruct (rstrip_prefix (lstrip s)) as [post Hpost].
  exists pre, post. by rewrite <-Hpost.
Qed.

Lemma lstrip_starts s :
  match lstrip s with
  | EmptyString => True
  | String c _ => isspace c = false
  end.
Proof. induction s as [|c s IH]; [done|]. simpl. by destruct (isspace c) eqn:Hc. Qed.

Lemma rstrip_keeps_head c s : isspace c = false → ∃ kept, rstrip (String c s) = String c kept.
Proof. intros Hc. simpl. destruct (rstrip s); rewrite ?Hc; eauto. Qed.

Lemma rstrip_rstrip s : rstrip (rstrip s) = rstrip s.
Proof.
  induction s as [|c s IH]; [done|]. simpl.
  destruct (rstrip s) as [|d kept] eqn:Hr.
  - destruct (isspace c) eqn:Hc; [done|]. simpl. by rewrite Hc.
  - simpl. simpl in IH. by rewrite IH.
Qed.

Lemma strip_strip s : strip (strip s) = strip s.
Proof.
  unfold strip. pose proof (lstrip_starts s) as Hs.
  destruct (lstrip s) as [|c u]; [done|].
  destruct (rstrip_keeps_head c u Hs) as [kept Hk]. rewrite Hk.
  simpl lstrip. rewrite Hs, <-Hk. apply rstrip_rstrip.
Qed.

Lemma strip_lower_space_l c s : isspace c = true → strip (lower (String c s)) = strip (lower s).
Proof. intros Hc. simpl. apply strip_leading. by rewrite isspace_lower_char. Qed.

Lemma strip_lower_space_r c s :
  isspace c = true → strip (lower (s +:+ String c "")) = strip (lower s).
Proof.
  intros Hc. rewrite lower_app. simpl. apply strip_trailing. by rewrite isspace_lower_char.
Qed.

Lemma contains_empty s : contains "" s = true.
Proof. apply contains_spec. by exists "", s. Qed.
End MoreStringFacts.

(** ** More on the match confidence *)

Lemma match_confidence_by_terms name name' place_name place_name' :
  PyStr.lower name = PyStr.lower name' →
  PyStr.strip (PyStr.lower place_name) = PyStr.strip (PyStr.lower place_name') →
  NominatimClient.match_confidence name place_name
  = NominatimClient.match_confidence name' place_name'.
Proof. unfold NominatimClient.match_confidence. by intros -> ->. Qed.

(** X1: the confidence of a match looks at neither the case of the letters
    nor the white space around the query: upper-casing the found name and
    the query (ASCII text), or putting a white-space character before or
    after the query, leaves it as it is. *)
Theorem match_confidence_ignores_case_and_margins (name place_name : string) (c : ascii) :
  PyStr.isspace c = true →
  (isascii name = true → isascii place_name = true →
   NominatimClient.match_confidence (PyStr.upper name) (PyStr.upper place_name)
   = NominatimClient.match_confidence name place_name)
  ∧ NominatimClient.match_confidence name (String c place_name)
    = NominatimClient.match_confidence name place_name
  ∧ NominatimClient.match_confidence name (place_name +:+ String c "")
    = NominatimClient.match_confidence name place_name.
Proof.
  intros Hc. split_and!; [intros _ _|..]; apply match_confidence_by_terms; try done.
  - apply lower_upper.
  - by rewrite lower_upper.
  - by apply strip_lower_space_l.
  - by apply strip_lower_space_r.
Qed.

Lemma match_confidence_ignores_case_and_margins_witness :
  NominatimClient.match_confidence "NEW YORK" "NEW"
  = NominatimClient.match_confidence "New York" "New"
  ∧ NominatimClient.match_confidence "New York" " New"
    = NominatimClient.match_confidence "New York" "New"
  ∧ NominatimClient.match_confidence "New York" "New "
    = NominatimClient.match_confidence "New York" "New".
Proof.
  destruct (match_confidence_ignores_case_and_margins "New York" "New" " "%char)
    as (Hcase & Hleft & Hright); [reflexivity|].
  split_and!; [apply Hcase; reflexivity | exact Hleft | exact Hright].
Defined.

(** X2: a found name that is the query up to the case of its letters is a
    match of high confidence, and so is any found name for a query that is
    blank (empty or white space only), the empty text being part of every
    text. *)
Theorem match_confidence_high_cases (name place_name : string) :
  (PyStr.lower name = PyStr.lower place_name →
   NominatimClient.match_confidence name place_name = high)
  ∧ (PyStr.strip (PyStr.lower place_name) = "" →
     NominatimClient.match_confidence name place_name = high).
Proof.
  split.
  - intros Heq. apply match_confidence_high. right. rewrite Heq. apply strip_substring.
  - intros Hblank. apply match_confidence_high. right. rewrite Hblank.
    by exists "", (PyStr.lower name).
Qed.

Lemma match_confidence_high_cases_witness :
  NominatimClient.match_confidence "bangalore" "BANGALORE" = high
  ∧ NominatimClient.match_confidence "Paris" "  " = high.
Proof.
  split.
  - apply (proj1 (match_confidence_high_cases "bangalore" "BANGALORE")). reflexivity.
  - apply (proj2 (match_confidence_high_cases "Paris" "  ")). reflexivity.
Defined.

(** X3: a geocoder result without a [name] takes the query for its name,
    and is therefore a match of high confidence. *)
Theorem unnamed_result_high (w : world) (place_name : string)
    (log log' : list event) (record : place_details) :
  NominatimClient.get_place_details w place_name log = (Some record, log') →
  (∀ result rest, nominatim w log place_name true = Some (result :: rest) →
                  nr_name result = None) →
  pd_name record = place_name ∧ pd_match_confidence record = high.
Proof.
  unfold NominatimClient.get_place_details, NominatimClient.search, bind, ret.
  intros Hget Hname.
  destruct (nominatim w log place_name true) as [[|result rest]|]; simplify_eq/=.
  rewrite (Hname _ _ eq_refl). simpl. split; [done|].
  apply match_confidence_high. right. apply strip_substring.
Qed.

Lemma unnamed_result_high_witness :
  pd_name (MoreSamples.bare_record "Atlantis") = "Atlantis"
  ∧ pd_match_confidence (MoreSamples.bare_record "Atlantis") = high.
Proof.
  apply (unnamed_result_high MoreSamples.bare "Atlantis" []
           [Geocode "Atlantis" true (Some [MoreSamples.bare_result])]).
  - reflexivity.
  - intros result rest H. by inversion H.
Defined.

(** ** More on the attraction list *)

Section MoreAttractions.
Import OverpassClient.

Lemma scan_step element rest limit places seen_names :
  scan (element :: rest) limit places seen_names
  = match candidate element with
    | Some entry =>
        if bool_decide (pl_name entry ∈ seen_names) then scan rest limit places seen_names
        else if Z.of_nat (length (places ++ [entry])) >=? limit then places ++ [entry]
             else scan rest limit (places ++ [entry]) ({[pl_name entry]} ∪ seen_names)
    | None => scan rest limit places seen_names
    end.
Proof.
  unfold candidate. simpl scan.
  destruct (el_tags element) as [tags|]; simpl; [|done].
  case_bool_decide as Hempty; [by subst|].
  destruct (tags !! "tourism") as [kind|] eqn:Hkind; simpl; [|done].
  destruct (PyStr.por _ _) as [name|]; [|done].
  destruct (String.eqb name "") eqn:Hname; simpl; [done|].
  by repeat case_bool_decide.
Qed.

Lemma scan_takes elements limit places seen_names :
  Z.of_nat (length places) < limit →
  scan elements limit places seen_names
  = places ++ take (Z.to_nat limit - length places)
                (first_by_name seen_names (omap candidate elements)).
Proof.
  revert places seen_names.
  induction elements as [|element rest IH]; intros places seen_names Hroom.
  - simpl. by rewrite take_nil, app_nil_r.
  - rewrite scan_step. simpl omap.
    destruct (candidate element) as [entry|]; [|by apply IH]. simpl first_by_name.
    case_bool_decide; [by apply IH|].
    rewrite length_app. simpl length.
    destruct (Z.geb_spec (Z.of_nat (length places + 1)) limit) as [Hfull|Hmore].
    + replace (Z.to_nat limit - length places)%nat with 1%nat by lia.
      simpl. by rewrite take_0.
    + rewrite IH by (rewrite length_app; simpl; lia).
      rewrite length_app. simpl length.
      replace (Z.to_nat limit - length places)%nat
        with (S (Z.to_nat limit - (length places + 1)))%nat by lia.
      simpl. by rewrite <-app_assoc.
Qed.

Lemma attractions_take elements limit :
  0 ≤ limit →
  slice_to limit (scan elements limit [] ∅) = take (Z.to_nat limit) (attractions_of elements).
Proof.
  intros Hpos. unfold slice_to, attractions_of.
  destruct (Z.ltb_spec limit 0); [lia|].
  destruct (decide (limit = 0)) as [->|Hne]; [by rewrite !take_0|].
  rewrite scan_takes by (simpl; lia). simpl.
  rewrite Nat.sub_0_r, take_take. f_equal. lia.
Qed.

Lemma first_by_name_length seen entries :
  (length (first_by_name seen entries) ≤ length entries)%nat.
Proof.
  revert seen. induction entries as [|entry rest IH]; intros seen; simpl; [done|].
  case_bool_decide; simpl; [etrans; [apply IH|lia] | specialize (IH ({[pl_name entry]} ∪ seen)); lia].
Qed.

Lemma first_by_name_names seen entries name :
  name ∈ (pl_name <$> first_by_name seen entries)
  ↔ (name ∉ seen) ∧ name ∈ (pl_name <$> entries).
Proof.
  revert seen. induction entries as [|entry rest IH]; intros seen; simpl.
  - split; [by intros ?%elem_of_nil | by intros [_ ?%elem_of_nil]].
  - case_bool_decide as Hseen; simpl; rewrite ?elem_of_cons, IH; [set_solver|].
    destruct (decide (name = pl_name entry)) as [->|Hne]; set_solver.
Qed.

Lemma omap_candidate_length elements :
  (length (omap candidate elements) ≤ length elements)%nat.
Proof.
  unfold omap. induction elements as [|element rest IH]; simpl; [done|].
  destruct (candidate element); simpl; lia.
Qed.
End MoreAttractions.

Lemma attractions_run w latitude longitude limit log :
  0 ≤ limit →
  fst (OverpassClient.get_tourist_attractions w latitude longitude limit log)
  = take (Z.to_nat limit) (attractions_of (default [] (overpass w log latitude longitude))).
Proof.
  intros Hpos.
  unfold OverpassClient.get_tourist_attractions, OverpassClient.post, bind, ret. simpl.
  destruct (overpass w log latitude longitude) as [elements|]; simpl.
  - by apply attractions_take.
  - unfold attractions_of. simpl. by rewrite take_nil.
Qed.

(** X4: for a limit that is not negative, [get_tourist_attractions] gives
    the first [limit] of the attractions of the answer, these being its
    named tourism elements in the order of the answer with each name kept
    where it first occurs. *)
Theorem attractions_are_first_unique (w : world) (latitude longitude : Q) (limit : Z)
    (log : list event) :
  0 ≤ limit →
  fst (OverpassClient.get_tourist_attractions w latitude longitude limit log)
  = take (Z.to_nat limit) (attractions_of (default [] (overpass w log latitude longitude))).
Proof. apply attractions_run. Qed.

Lemma attractions_are_first_unique_witness :
  fst (OverpassClient.get_tourist_attractions Sample.all_up (13 # 1)%Q (155 # 2)%Q 1 [])
  = take 1 (attractions_of Sample.gardens).
Proof.
  apply (attractions_are_first_unique Sample.all_up (13 # 1)%Q (155 # 2)%Q 1 []). lia.
Defined.

(** X5: a smaller limit gives a prefix of what a larger limit gives for the
    same answer of the provider: raising the limit only adds entries at
    the end. *)
Theorem attractions_prefix_by_limit (w : world) (latitude longitude : Q) (small large : Z)
    (log : list event) :
  0 ≤ small → small ≤ large →
  fst (OverpassClient.get_tourist_attractions w latitude longitude small log)
  = take (Z.to_nat small)
      (fst (OverpassClient.get_tourist_attractions w latitude longitude large log)).
Proof.
  intros Hpos Hle.
  unfold OverpassClient.get_tourist_attractions, OverpassClient.post, bind, ret. simpl.
  destruct (overpass w log latitude longitude) as [elements|]; simpl.
  - rewrite !attractions_take by lia. rewrite take_take. f_equal. lia.
  - by rewrite take_nil.
Qed.

Lemma attractions_prefix_by_limit_witness :
  fst (OverpassClient.get_tourist_attractions Sample.all_up (13 # 1)%Q (155 # 2)%Q 1 [])
  = take 1 (fst (OverpassClient.get_tourist_attractions Sample.all_up (13 # 1)%Q (155 # 2)%Q
                   5 [])).
Proof.
  apply (attractions_prefix_by_limit Sample.all_up (13 # 1)%Q (155 # 2)%Q 1 5 []); lia.
Defined.

(** X6: with a limit no smaller than the number of elements of the answer
    nothing is cut off: a name is in the list exactly when some element
    of the answer with a [tourism] tag resolves to it. *)
Theorem attractions_complete (w : world) (latitude longitude : Q) (limit : Z)
    (log : list event) (elements : list element) (name : string) :
  overpass w log latitude longitude = Some elements →
  Z.of_nat (length elements) ≤ limit →
  name ∈ (pl_name <$> fst (OverpassClient.get_tourist_attractions w latitude longitude
                             limit log))
  ↔ ∃ element entry, element ∈ elements ∧ candidate element = Some entry
                     ∧ pl_name entry = name.
Proof.
  intros Hreply Hlimit.
  rewrite attractions_run by lia. rewrite Hreply. simpl.
  rewrite take_ge.
  2: { unfold attractions_of.
       pose proof (first_by_name_length ∅ (omap candidate elements)).
       pose proof (omap_candidate_length elements). lia. }
  unfold attractions_of. rewrite first_by_name_names, list_elem_of_fmap.
  setoid_rewrite list_elem_of_omap. split.
  - intros (_ & entry & -> & element & Hin & Hc). by exists element, entry.
  - intros (element & entry & Hin & Hc & <-). split; [set_solver|]. by exists entry; eauto.
Qed.

Lemma attractions_complete_witness :
  "Cubbon Park"
  ∈ (pl_name <$> fst (OverpassClient.get_tourist_attractions Sample.all_up (13 # 1)%Q
                        (155 # 2)%Q 5 []))
  ↔ ∃ element entry, element ∈ Sample.gardens ∧ candidate element = Some entry
                     ∧ pl_name entry = "Cubbon Park".
Proof.
  apply (attractions_complete Sample.all_up (13 # 1)%Q (155 # 2)%Q 5 [] Sample.gardens).
  - reflexivity.
  - simpl. lia.
Defined.

(** ** Coordinates *)

(** X7: when the geocoder answers the two kinds of request alike, the
    coordinates that the facets get are those of the record that was
    verified; and a first result that lacks its latitude or longitude
    still makes a record (with 0 in its place) but gives no coordinates,
    so that the weather sentence and the places rendering both fail. *)
Theorem coordinates_match_record (w : world) (place_name : string) (log1 log2 : list event)
    (record : place_details) :
  nominatim w log1 place_name true = nominatim w log2 place_name false →
  fst (NominatimClient.get_place_details w place_name log1) = Some record →
  (∀ lat lon, fst (NominatimClient.get_coordinates w place_name log2) = Some (lat, lon) →
              pd_lat record = lat ∧ pd_lon record = lon)
  ∧ (fst (NominatimClient.get_coordinates w place_name log2) = None
     ↔ ∃ result rest, nominatim w log2 place_name false = Some (result :: rest)
                      ∧ (nr_lat result = None ∨ nr_lon result = None))
  ∧ (fst (NominatimClient.get_coordinates w place_name log2) = None →
     fst (WeatherAgent.get_weather_info w place_name log2) = None
     ∧ fst (PlacesAgent.get_places_info w place_name 5 log2) = None).
Proof.
  intros Hsame Hrecord.
  unfold NominatimClient.get_place_details, NominatimClient.search, bind, ret in Hrecord.
  simpl in Hrecord. rewrite Hsame in Hrecord.
  unfold WeatherAgent.get_weather_info, PlacesAgent.get_places_info, bind.
  rewrite get_coordinates_run. simpl.
  destruct (nominatim w log2 place_name false) as [[|result rest]|]; simplify_eq/=.
  destruct (nr_lat result) as [lat|] eqn:Hlat, (nr_lon result) as [lon|] eqn:Hlon; simpl.
  - split_and!.
    + intros lat' lon' H. by simplify_eq.
    + split; [done|]. intros (r & rs & Heq & [H|H]); simplify_eq; congruence.
    + done.
  - split_and!; [done| |done].
    split; [intros _; exists result, rest; auto | done].
  - split_and!; [done| |done].
    split; [intros _; exists result, rest; auto | done].
  - split_and!; [done| |done].
    split; [intros _; exists result, rest; auto | done].
Qed.

Lemma coordinates_match_record_witness :
  (∀ lat lon,
     fst (NominatimClient.get_coordinates
            (MoreSamples.answering MoreSamples.no_latitude (Some Sample.mild)) "Bangalore" [])
     = Some (lat, lon) → 0%Q = lat ∧ (155 # 2)%Q = lon)
  ∧ (fst (NominatimClient.get_coordinates
            (MoreSamples.answering MoreSamples.no_latitude (Some Sample.mild)) "Bangalore" [])
     = None
     ↔ ∃ result rest, Some [MoreSamples.no_latitude] = Some (result :: rest)
                      ∧ (nr_lat result = None ∨ nr_lon result = None))
  ∧ (fst (NominatimClient.get_coordinates
            (MoreSamples.answering MoreSamples.no_latitude (Some Sample.mild)) "Bangalore" [])
     = None →
     fst (WeatherAgent.get_weather_info
            (MoreSamples.answering MoreSamples.no_latitude (Some Sample.mild)) "Bangalore" [])
     = None
     ∧ fst (PlacesAgent.get_places_info
              (MoreSamples.answering MoreSamples.no_latitude (Some Sample.mild)) "Bangalore" 5 [])
       = None).
Proof.
  apply (coordinates_match_record
           (MoreSamples.answering MoreSamples.no_latitude (Some Sample.mild)) "Bangalore" [] []
           {| pd_name := "Bangalore"; pd_display_name := "Bangalore"; pd_type := "city";
              pd_lat := 0%Q; pd_lon := (155 # 2)%Q; pd_country := "Unknown";
              pd_state := ""; pd_city := ""; pd_importance := Sample.float_0_9;
              pd_osm_type := "relation"; pd_match_confidence := high |}).
  - reflexivity.
  - reflexivity.
Defined.

Example verified_without_coordinates :
  fst (fst (fst (NominatimClient.verify_place_exists
                   (MoreSamples.answering MoreSamples.no_latitude (Some Sample.mild))
                   "Bangalore" true []))) = true
  ∧ fst (TourismSystemOffline.process_query
           (MoreSamples.answering MoreSamples.no_latitude (Some Sample.mild))
           "Bangalore" true true [])
    = "Could not retrieve weather information for Bangalore. Could not retrieve tourist attractions for Bangalore.".
Proof. split; reflexivity. Qed.

(** ** Missing keys of the forecast *)

(** X8: given coordinates, there is a weather sentence exactly when the
    forecast was fetched and has both its [current] and its
    [current_units] block; and when these blocks lack the keys that are
    read, the sentence says "None" for the temperature and for the chance
    of rain, with the unit "Â°C" that [get_weather] falls back on. *)
Theorem weather_sentence_needs_blocks (w : world) (place_name : string)
    (log log1 : list event) (lat lon : Q) :
  NominatimClient.get_coordinates w place_name log = (Some (lat, lon), log1) →
  (is_Some (fst (WeatherAgent.get_weather_info w place_name log))
   ↔ ∃ data, open_meteo w log1 lat lon = Some data
             ∧ is_Some (fc_current data) ∧ is_Some (fc_current_units data))
  ∧ (∀ data current units,
       open_meteo w log1 lat lon = Some data →
       fc_current data = Some current → fc_current_units data = Some units →
       current !! "temperature_2m" = None →
       current !! "precipitation_probability" = None →
       units !! "temperature_2m" = None →
       fst (WeatherAgent.get_weather_info w place_name log)
       = Some ("In " +:+ place_name
               +:+ " it's currently NoneÂ°C with a chance of None% to rain.")).
Proof.
  intros Hc. unfold WeatherAgent.get_weather_info.
  rewrite (bind_run _ _ _ _ _ Hc).
  unfold OpenMeteoClient.get_weather, OpenMeteoClient.fetch, bind, ret. simpl.
  split.
  - destruct (open_meteo w log1 lat lon) as [data|]; simpl.
    + destruct (fc_current data) as [current|] eqn:Hcur,
        (fc_current_units data) as [units|] eqn:Hun; simpl.
      * split; intros _; [|by eexists].
        exists data. rewrite Hcur, Hun. split_and!; by eauto.
      * split; [by intros [? ?]|].
        intros (d & Hd & _ & [? Hu]). simplify_eq; congruence.
      * split; [by intros [? ?]|].
        intros (d & Hd & [? Hu] & _). simplify_eq; congruence.
      * split; [by intros [? ?]|].
        intros (d & Hd & [? Hu] & _). simplify_eq; congruence.
    + split; [by intros [? ?] | by intros (? & ? & _)].
  - intros data current units -> -> -> -> -> ->. reflexivity.
Qed.

Lemma weather_sentence_needs_blocks_witness :
  fst (WeatherAgent.get_weather_info
         (MoreSamples.answering Sample.bangalore (Some MoreSamples.empty_blocks)) "Bangalore" [])
  = Some "In Bangalore it's currently NoneÂ°C with a chance of None% to rain.".
Proof.
  apply (proj2 (weather_sentence_needs_blocks
                  (MoreSamples.answering Sample.bangalore (Some MoreSamples.empty_blocks))
                  "Bangalore" [] [Geocode "Bangalore" false (Some [Sample.bangalore])]
                  (13 # 1)%Q (155 # 2)%Q eq_refl)
           MoreSamples.empty_blocks ∅ ∅); reflexivity.
Defined.

Example forecast_without_units :
  fst (TourismSystemOffline.process_query
         (MoreSamples.answering Sample.bangalore (Some MoreSamples.no_units))
         "Bangalore" true false [])
  = "Could not retrieve weather information for Bangalore.".
Proof. reflexivity. Qed.

(** ** The place name that is extracted *)

(** X9: for an answer of the chat model in ASCII text, a place name that
    [extract_place_name] returns is that answer without the white space
    at its two ends; it is not empty, is not NONE in whatever case, and
    stripping it again changes nothing.  No place name is returned exactly
    when the answer, once trimmed, is empty or is NONE in some case. *)
Theorem extracted_place_is_clean (w : world) (user_input : string) (log : list event)
    (content : string) :
  openai w log (ExtractPlace user_input) = Some content →
  isascii content = true →
  let trimmed := PyStr.strip content in
  trimmed_of trimmed content
  ∧ (∀ place_name,
       fst (TourismAIAgent.extract_place_name w user_input log) = Some place_name →
       place_name = trimmed
       ∧ place_name ≠ ""
       ∧ PyStr.upper place_name ≠ "NONE"
       ∧ PyStr.strip place_name = place_name)
  ∧ (fst (TourismAIAgent.extract_place_name w user_input log) = None
     ↔ PyStr.upper trimmed = "NONE" ∨ trimmed = "").
Proof.
  intros Hanswer _ trimmed. rewrite extract_place_name_run, Hanswer. cbn [fst].
  fold trimmed. split; [apply strip_trimmed|].
  destruct (String.eqb_spec (PyStr.upper trimmed) "NONE") as [Hnone|Hnone]; simpl.
  { split; [done|]. split; [by left | done]. }
  destruct (String.eqb_spec trimmed "") as [Hempty|Hempty]; simpl.
  { split; [done|]. split; [by right | done]. }
  split.
  - intros place_name [= <-]. split_and!; [done..|apply strip_strip].
  - split; [done | by intros [|]].
Qed.

Lemma extracted_place_is_clean_witness :
  fst (TourismAIAgent.extract_place_name (MoreSamples.saying (Some "  none ")) "Hello" [])
  = None.
Proof.
  destruct (extracted_place_is_clean (MoreSamples.saying (Some "  none ")) "Hello" []
              "  none ") as (_ & _ & Hnone); [reflexivity | reflexivity |].
  apply Hnone. left. reflexivity.
Defined.

(** ** The free-text query without an accepted place *)



Example agent_rejects_smallville :
  TourismAIAgent.process_query (MoreSamples.saying (Some " Smallville ")) "Tell me more" []
  = ("Smallville",
     [Chat (ExtractPlace "Tell me more") (Some " Smallville ");
      Geocode "Smallville" true (Some [Sample.tiny "Smallville" "hamlet"]);
      Chat (Apologise "Smallville") (Some " Smallville ")]).
Proof. reflexivity. Qed.

(** ** The two entry points side by side *)

Lemma intent_not_empty user_input :
  weather (TourismAIAgent.determine_intent user_input)
  || places (TourismAIAgent.determine_intent user_input) = true.
Proof.
  unfold TourismAIAgent.determine_intent.
  destruct (PyStr.any _ TourismAIAgent.weather_keywords);
    by destruct (PyStr.any _ TourismAIAgent.places_keywords).
Qed.

(** X11: for a place that is accepted and for the facets that the intent
    asks for, the free-text and the structured [process_query] give the
    same answer whenever every facet asked for brings its text back. *)
Theorem entry_points_agree (w : world) (user_input place_name : string)
    (a0 a1 a2 a3 a4 b0 b1 b2 : list event) (record : option place_details)
    (message : string) (weather_info places_info : option string) :
  let asked := TourismAIAgent.determine_intent user_input in
  TourismAIAgent.extract_place_name w user_input a0 = (Some place_name, a1) →
  NominatimClient.verify_place_exists w place_name true a1 = ((true, record, message), a2) →
  (if weather asked then WeatherAgent.get_weather_info w place_name else ret None) a2
  = (weather_info, a3) →
  (if places asked then PlacesAgent.get_places_info w place_name 5 else ret None) a3
  = (places_info, a4) →
  (if weather asked then TourismSystemOffline.get_weather_info w place_name else ret None) b0
  = (weather_info, b1) →
  (if places asked then TourismSystemOffline.get_places_info w place_name 5 else ret None) b1
  = (places_info, b2) →
  (weather asked = true → is_Some weather_info) →
  (places asked = true → is_Some places_info) →
  fst (TourismAIAgent.process_query w user_input a0)
  = fst (TourismSystemOffline.process_query w place_name (weather asked) (places asked) b0).
Proof.
  intros asked Hextract Hverify Hw Hp Hw' Hp' Hsw Hsp.
  rewrite (agent_answer_run _ _ _ _ _ _ _ _ Hextract Hverify _ _ _ _ Hw Hp).
  pose proof (intent_not_empty user_input) as Hsome. fold asked in Hsome.
  destruct (weather asked), (places asked); try done.
  - destruct (Hsw eq_refl) as [sentence ->], (Hsp eq_refl) as [info ->].
    by rewrite (offline_answer_both _ _ _ _ _ _ _ Hw' Hp').
  - destruct (Hsw eq_refl) as [sentence ->].
    unfold ret in Hp'. simplify_eq.
    by rewrite (offline_answer_weather _ _ _ _ _ Hw').
  - destruct (Hsp eq_refl) as [info ->].
    unfold ret in Hw'. simplify_eq.
    by rewrite (offline_answer_places _ _ _ _ _ Hp').
Qed.

Lemma entry_points_agree_witness :
  fst (TourismAIAgent.process_query Sample.all_up "How hot is it?" [])
  = fst (TourismSystemOffline.process_query Sample.all_up "Bangalore" true false []).
Proof.
  eapply (entry_points_agree Sample.all_up "How hot is it?" "Bangalore" []
           [Chat (ExtractPlace "How hot is it?") (Some "Bangalore")]
           [Chat (ExtractPlace "How hot is it?") (Some "Bangalore");
            Geocode "Bangalore" true (Some [Sample.bangalore])]
           [Chat (ExtractPlace "How hot is it?") (Some "Bangalore");
            Geocode "Bangalore" true (Some [Sample.bangalore]);
            Geocode "Bangalore" false (Some [Sample.bangalore]);
            Forecast (13 # 1)%Q (155 # 2)%Q (Some Sample.mild)]
           [Chat (ExtractPlace "How hot is it?") (Some "Bangalore");
            Geocode "Bangalore" true (Some [Sample.bangalore]);
            Geocode "Bangalore" false (Some [Sample.bangalore]);
            Forecast (13 # 1)%Q (155 # 2)%Q (Some Sample.mild)]
           []
           [Geocode "Bangalore" false (Some [Sample.bangalore]);
            Forecast (13 # 1)%Q (155 # 2)%Q (Some Sample.mild)]
           [Geocode "Bangalore" false (Some [Sample.bangalore]);
            Forecast (13 # 1)%Q (155 # 2)%Q (Some Sample.mild)]
           _ _
           (Some "In Bangalore it's currently 24°C with a chance of 10% to rain.") None);
    try reflexivity.
  - intros _. by eexists.
  - intros H. discriminate H.
Defined.

(** X12: when both facets are asked for and only the places come back, the
    two entry points part: the free-text one answers with the places
    rendering as it is, the structured one with the weather failure
    sentence followed by the connective form, which drops the first line
    of the rendering. *)
Theorem entry_points_part_on_failed_weather (w : world) (user_input place_name : string)
    (a0 a1 a2 a3 a4 b0 b1 b2 : list event) (record : option place_details)
    (message info : string) :
  TourismAIAgent.determine_intent user_input = {| weather := true; places := true |} →
  TourismAIAgent.extract_place_name w user_input a0 = (Some place_name, a1) →
  NominatimClient.verify_place_exists w place_name true a1 = ((true, record, message), a2) →
  WeatherAgent.get_weather_info w place_name a2 = (None, a3) →
  PlacesAgent.get_places_info w place_name 5 a3 = (Some info, a4) →
  TourismSystemOffline.get_weather_info w place_name b0 = (None, b1) →
  TourismSystemOffline.get_places_info w place_name 5 b1 = (Some info, b2) →
  ∃ first_line places_list,
    info = first_line +:+ PyStr.nl +:+ places_list
    ∧ PyStr.contains PyStr.nl first_line = false
    ∧ fst (TourismAIAgent.process_query w user_input a0) = info
    ∧ fst (TourismSystemOffline.process_query w place_name true true b0)
      = "Could not retrieve weather information for " +:+ place_name +:+ ". "
        +:+ connective_prefix +:+ PyStr.nl +:+ places_list.
Proof.
  intros Hintent Hextract Hverify Hw Hp Hw' Hp'.
  destruct (and_places_of_rendering _ _ _ _ _ _ Hp)
    as (first_line & places_list & Heq & Hfirst & _ & Hand).
  exists first_line, places_list. split_and!; [done..| |].
  - rewrite (agent_answer_run _ _ _ _ _ _ _ _ Hextract Hverify a3 a4 None (Some info));
      [done | by rewrite Hintent | by rewrite Hintent].
  - rewrite (offline_answer_both _ _ _ _ _ _ _ Hw' Hp'). simpl. rewrite Hand.
    unfold weather_failure. by rewrite !app_assoc'.
Qed.

Lemma entry_points_part_on_failed_weather_witness :
  ∃ first_line places_list,
    "In Bangalore these are the places you can go, - - - - -" +:+ PyStr.nl
    +:+ "Lalbagh" +:+ PyStr.nl +:+ "Cubbon Park"
    = first_line +:+ PyStr.nl +:+ places_list
    ∧ PyStr.contains PyStr.nl first_line = false
    ∧ fst (TourismAIAgent.process_query (Sample.providers true false (Some Sample.gardens))
             "What is the weather in Bangalore and which places can I visit?" [])
      = "In Bangalore these are the places you can go, - - - - -" +:+ PyStr.nl
        +:+ "Lalbagh" +:+ PyStr.nl +:+ "Cubbon Park"
    ∧ fst (TourismSystemOffline.process_query (Sample.providers true false (Some Sample.gardens))
             "Bangalore" true true [])
      = "Could not retrieve weather information for " +:+ "Bangalore" +:+ ". "
        +:+ connective_prefix +:+ PyStr.nl +:+ places_list.
Proof.
  eapply (entry_points_part_on_failed_weather (Sample.providers true false (Some Sample.gardens))
            "What is the weather in Bangalore and which places can I visit?" "Bangalore" []);
    reflexivity.
Defined.

(** ** How many requests a query makes *)

Ltac count_events :=
  unfold one_facet, geocodes, facet_calls; cbn;
  repeat case_decide; simpl; try congruence; try lia.

Section Requests.

Lemma geocodes_app log1 log2 : geocodes (log1 ++ log2) = (geocodes log1 + geocodes log2)%nat.
Proof. unfold geocodes. by rewrite filter_app, length_app. Qed.

Lemma facet_calls_app log1 log2 :
  facet_calls (log1 ++ log2) = (facet_calls log1 + facet_calls log2)%nat.
Proof. unfold facet_calls. by rewrite filter_app, length_app. Qed.

Variable w : world.

Lemma weather_info_requests place_name log :
  ∃ new, snd (WeatherAgent.get_weather_info w place_name log) = log ++ new ∧ one_facet new.
Proof.
  unfold WeatherAgent.get_weather_info, bind. rewrite get_coordinates_run.
  unfold OpenMeteoClient.get_weather, OpenMeteoClient.fetch, bind, ret.
  repeat case_match; simplify_eq/=; rewrite <-?app_assoc; eexists; (split; [done|]);
    count_events.
Qed.

Lemma places_info_requests place_name limit log :
  ∃ new, snd (PlacesAgent.get_places_info w place_name limit log) = log ++ new ∧ one_facet new.
Proof.
  unfold PlacesAgent.get_places_info, bind. rewrite get_coordinates_run.
  unfold OverpassClient.get_tourist_attractions, OverpassClient.post, bind, ret.
  repeat case_match; simplify_eq/=; rewrite <-?app_assoc; eexists; (split; [done|]);
    count_events.
Qed.
End Requests.

(** X13: the structured [process_query] asks the geocoder once for every
    facet that is asked for (twice for both: nothing is kept from one
    facet to the other), each geocoder request being followed by at most
    one request to the facet's provider, and it makes no other request. *)
Theorem structured_query_requests (w : world) (place_name : string)
    (get_weather get_places : bool) (log : list event) :
  ∃ new,
    snd (TourismSystemOffline.process_query w place_name get_weather get_places log)
    = log ++ new
    ∧ geocodes new = ((if get_weather then 1 else 0) + (if get_places then 1 else 0))%nat
    ∧ (facet_calls new ≤ geocodes new)%nat
    ∧ length new = (geocodes new + facet_calls new)%nat.
Proof.
  destruct (TourismSystemOffline.get_weather_info w place_name log)
    as [weather_info log1] eqn:Hw.
  destruct (TourismSystemOffline.get_places_info w place_name 5 log1)
    as [places_info log2] eqn:Hp.
  destruct (TourismSystemOffline.get_places_info w place_name 5 log)
    as [places_alone log3] eqn:Hp0.
  destruct (weather_info_requests w place_name log) as (new1 & H1 & Hg1 & Hf1 & Hl1).
  destruct (places_info_requests w place_name 5 log1) as (new2 & H2 & Hg2 & Hf2 & Hl2).
  destruct (places_info_requests w place_name 5 log) as (new3 & H3 & Hg3 & Hf3 & Hl3).
  rewrite <-offline_weather_info_eq, Hw in H1.
  rewrite <-offline_places_info_eq, Hp in H2.
  rewrite <-offline_places_info_eq, Hp0 in H3. simpl in H1, H2, H3. subst.
  destruct get_weather, get_places.
  - rewrite (offline_answer_both _ _ _ _ _ _ _ Hw Hp). simpl. exists (new1 ++ new2).
    rewrite <-app_assoc, geocodes_app, facet_calls_app, length_app. split; [done|]. lia.
  - rewrite (offline_answer_weather _ _ _ _ _ Hw). simpl. exists new1. split; [done|]. lia.
  - rewrite (offline_answer_places _ _ _ _ _ Hp0). simpl. exists new3. split; [done|]. lia.
  - exists []. rewrite app_nil_r. split; [done|]. count_events.
Qed.

Lemma structured_query_requests_witness :
  ∃ new,
    snd (TourismSystemOffline.process_query Sample.all_up "Bangalore" true true []) = [] ++ new
    ∧ geocodes new = (1 + 1)%nat
    ∧ (facet_calls new ≤ geocodes new)%nat
    ∧ length new = (geocodes new + facet_calls new)%nat.
Proof. apply (structured_query_requests Sample.all_up "Bangalore" true true []). Defined.

(** X14: a free-text query makes at most six requests, of which at most
    three go to the geocoder and at most two to the facet providers; the
    others, at most two, go to the chat model. *)
Theorem free_text_query_requests (w : world) (user_input : string) (log : list event) :
  ∃ new,
    snd (TourismAIAgent.process_query w user_input log) = log ++ new
    ∧ (geocodes new ≤ 3)%nat
    ∧ (facet_calls new ≤ 2)%nat
    ∧ (length new ≤ 2 + geocodes new + facet_calls new)%nat
    ∧ (length new ≤ 6)%nat.
Proof.
  pose proof (agent_query_log w user_input log) as H. cbv zeta in H.
  destruct (TourismAIAgent.extract_place_name w user_input log)
    as [[place_name|] log1] eqn:Hextract; simpl in H.
  2: { rewrite H. eexists. split; [done|]. count_events. }
  pose proof (verify_run w place_name true log1) as Hverify.
  assert (log1 = log ++ [Chat (ExtractPlace user_input) (openai w log (ExtractPlace user_input))])
    as Hlog1 by (rewrite extract_place_name_run in Hextract; by simplify_eq).
  rewrite <-Hlog1 in H.
  destruct (NominatimClient.judge true _) as [[exists_ record] message] eqn:Hjudge.
  destruct exists_; simpl in H.
  - clear H.
    destruct ((if weather (TourismAIAgent.determine_intent user_input)
               then WeatherAgent.get_weather_info w place_name else ret None)
                (log1 ++ [Geocode place_name true (nominatim w log1 place_name true)]))
      as [weather_info log3] eqn:Hw.
    destruct ((if places (TourismAIAgent.determine_intent user_input)
               then PlacesAgent.get_places_info w place_name 5 else ret None) log3)
      as [places_info log4] eqn:Hp.
    rewrite (agent_answer_run _ _ _ _ _ _ _ _ Hextract Hverify _ _ _ _ Hw Hp). simpl.
    assert (∃ new, log3 = (log1 ++ [Geocode place_name true (nominatim w log1 place_name true)])
                          ++ new
                   ∧ (geocodes new ≤ 1)%nat ∧ (facet_calls new ≤ 1)%nat
                   ∧ length new = (geocodes new + facet_calls new)%nat)
      as (new1 & -> & Hg1 & Hf1 & Hl1).
    { destruct (weather _).
      - destruct (weather_info_requests w place_name
                    (log1 ++ [Geocode place_name true (nominatim w log1 place_name true)]))
          as (new & Hnew & Hg & Hf & Hl).
        rewrite Hw in Hnew. exists new. simpl in Hnew. split; [done|]. lia.
      - unfold ret in Hw. simplify_eq. exists []. rewrite app_nil_r.
        split; [done|]. count_events. }
    assert (∃ new, log4 = ((log1 ++ [Geocode place_name true (nominatim w log1 place_name true)])
                           ++ new1) ++ new
                   ∧ (geocodes new ≤ 1)%nat ∧ (facet_calls new ≤ 1)%nat
                   ∧ length new = (geocodes new + facet_calls new)%nat)
      as (new2 & -> & Hg2 & Hf2 & Hl2).
    { destruct (places _).
      - destruct (places_info_requests w place_name 5
                    ((log1 ++ [Geocode place_name true (nominatim w log1 place_name true)])
                     ++ new1)) as (new & Hnew & Hg & Hf & Hl).
        rewrite Hp in Hnew. exists new. simpl in Hnew. split; [done|]. lia.
      - unfold ret in Hp. simplify_eq. exists []. rewrite app_nil_r.
        split; [done|]. count_events. }
    subst log1.
    exists ([Chat (ExtractPlace user_input) (openai w log (ExtractPlace user_input));
             Geocode place_name true
               (nominatim w (log ++ [Chat (ExtractPlace user_input)
                                       (openai w log (ExtractPlace user_input))])
                  place_name true)] ++ new1 ++ new2).
    split; [by rewrite <-!app_assoc|].
    rewrite !geocodes_app, !facet_calls_app, !length_app.
    assert (geocodes [Chat (ExtractPlace user_input) (openai w log (ExtractPlace user_input));
             Geocode place_name true
               (nominatim w (log ++ [Chat (ExtractPlace user_input)
                                       (openai w log (ExtractPlace user_input))])
                  place_name true)] = 1%nat) as -> by count_events.
    assert (facet_calls [Chat (ExtractPlace user_input) (openai w log (ExtractPlace user_input));
             Geocode place_name true
               (nominatim w (log ++ [Chat (ExtractPlace user_input)
                                       (openai w log (ExtractPlace user_input))])
                  place_name true)] = 0%nat) as -> by count_events.
    simpl. lia.
  - destruct H as [sorry ->]. eexists. split; [done|]. count_events.
Qed.

Lemma free_text_query_requests_witness :
  ∃ new,
    snd (TourismAIAgent.process_query Sample.all_up
           "What is the weather in Bangalore and which places can I visit?" []) = [] ++ new
    ∧ (geocodes new ≤ 3)%nat
    ∧ (facet_calls new ≤ 2)%nat
    ∧ (length new ≤ 2 + geocodes new + facet_calls new)%nat
    ∧ (length new ≤ 6)%nat.
Proof.
  apply (free_text_query_requests Sample.all_up
           "What is the weather in Bangalore and which places can I visit?" []).
Defined.

Example free_text_six_requests :
  length (snd (TourismAIAgent.process_query Sample.all_up
                 "What is the weather in Bangalore and which places can I visit?" []))
  = 6%nat.
Proof. reflexivity. Qed.

Example offline_both_requests :
  geocodes (snd (TourismSystemOffline.process_query Sample.all_up "Bangalore" true true [])) = 2%nat
  ∧ facet_calls (snd (TourismSystemOffline.process_query Sample.all_up "Bangalore" true true []))
    = 2%nat.
Proof. split; reflexivity. Qed.

(** ** The handler of [/api/query] *)



Example handler_rejects_smallville :
  fst (App.query Sample.all_up false
         {| App.qd_place := " Smallville "; App.qd_mode := "offline"; App.qd_weather := true;
            App.qd_places := true; App.qd_user_input := ""; App.qd_language := "en" |} [])
  = {| App.status := 404; App.success := false;
       App.text := "I don't know this place exists." |}.
Proof. reflexivity. Qed.



(** ** The verification route *)

Ltac destruct_run :=
  match goal with
  | |- context [App.translate ?a ?b ?c ?d ?e] => destruct (App.translate a b c d e) as [? ?]
  | |- context [App.generate_error_response ?a ?b ?c ?d ?e ?f] =>
      destruct (App.generate_error_response a b c d e f) as [? ?]
  | |- context [TourismSystemOffline.process_query ?a ?b ?c ?d ?e] =>
      destruct (TourismSystemOffline.process_query a b c d e) as [? ?]
  end.




(** X18: for the same place, language and state of the world, the
    verification route and the offline query agree: the query answers 200
    exactly when the route reports the place as found, and 404 exactly
    when the route reports it as unknown. *)
Theorem routes_agree (w : world) (has_openai : bool) (data : App.query_data)
    (log : list event) :
  App.qd_mode data ≠ "online" →
  PyStr.strip (App.qd_place data) ≠ "" →
  let reply := fst (App.query w has_openai data log) in
  let checked :=
    fst (Routes.verify_place w has_openai (App.qd_place data) (App.qd_language data) log) in
  (App.status reply = 200
   ↔ ∃ name found_place place_type country coordinates message level,
       checked = Routes.PlaceFound name found_place place_type country coordinates
                   message level)
  ∧ (App.status reply = 404 ↔ ∃ error found_place, checked = Routes.PlaceUnknown error found_place)
  ∧ (∀ error found_place,
       checked = Routes.PlaceUnknown error found_place → App.text reply = error).
Proof.
  intros Hmode Hplace.
  unfold App.query, Routes.verify_place. cbv zeta.
  apply String.eqb_neq in Hmode, Hplace. rewrite Hmode, Hplace, andb_false_l.
  cbv beta iota. unfold bind. cbv beta. rewrite !verify_run.
  set (place_name := PyStr.strip (App.qd_place data)).
  set (reply := nominatim w log place_name true).
  destruct (NominatimClient.read_place_details place_name reply) as [details|] eqn:Hread.
  - pose proof (judge_some true details) as Hsome.
    destruct (NominatimClient.judge true (Some details)) as [[exists_ found] text] eqn:Hjudge.
    simpl in Hsome. subst found.
    destruct exists_; cbv beta iota;
      change (negb true) with false; change (negb false) with true; cbv beta iota.
    + destruct_run.
      destruct (String.eqb (App.qd_language data) "en"); simpl; repeat destruct_run; simpl.
      all: split_and!; [split; [intros _; by repeat eexists | done]
                  | split; [done | by intros (? & ? & ?)] | by intros ?].
    + destruct_run. simpl.
      split_and!; [split; [done | by intros (? & ? & ? & ? & ? & ? & ? & ?)]
                  | split; [intros _; by repeat eexists | done]
                  | by intros ?? [= <- _]].
  - change (NominatimClient.judge true None)
      with (false, @None place_details, "I don't know this place exists.").
    cbv beta iota. change (negb false) with true. cbv beta iota. destruct_run. simpl.
    split_and!; [split; [done | by intros (? & ? & ? & ? & ? & ? & ? & ?)]
                | split; [intros _; by repeat eexists | done]
                | by intros ?? [= <- _]].
Qed.

Lemma routes_agree_witness :
  App.status
    (fst (App.query Sample.all_up false
            {| App.qd_place := "Smallville"; App.qd_mode := "offline"; App.qd_weather := true;
               App.qd_places := true; App.qd_user_input := ""; App.qd_language := "en" |} []))
  = 404
  ↔ ∃ error found_place,
      fst (Routes.verify_place Sample.all_up false "Smallville" "en" [])
      = Routes.PlaceUnknown error found_place.
Proof.
  apply (routes_agree Sample.all_up false
           {| App.qd_place := "Smallville"; App.qd_mode := "offline"; App.qd_weather := true;
              App.qd_places := true; App.qd_user_input := ""; App.qd_language := "en" |} []);
    discriminate.
Defined.

Example route_keeps_rejected_candidate :
  fst (Routes.verify_place Sample.all_up false "Smallville" "en" [])
  = Routes.PlaceUnknown "I don't know this place exists." (Some "Smallville, somewhere").
Proof. reflexivity. Qed.

(** ** The menu of the offline program *)

Lemma offline_answer_not_generic w place_name get_weather get_places log :
  get_weather || get_places = true →
  fst (TourismSystemOffline.process_query w place_name get_weather get_places log)
  ≠ "Could not retrieve information for " +:+ place_name +:+ ". Please try again.".
Proof.
  intros Hsome H.
  destruct (TourismSystemOffline.get_weather_info w place_name log)
    as [weather_info log1] eqn:Hw.
  destruct (TourismSystemOffline.get_places_info w place_name 5 log1)
    as [places_info log2] eqn:Hp.
  destruct (TourismSystemOffline.get_places_info w place_name 5 log)
    as [places_alone log3] eqn:Hp0.
  destruct get_weather, get_places; [| | |done].
  - rewrite (offline_answer_both _ _ _ _ _ _ _ Hw Hp) in H.
    destruct weather_info as [sentence|];
      [apply weather_info_shape in Hw as [data ->]|]; vm_compute in H; discriminate H.
  - rewrite (offline_answer_weather _ _ _ _ _ Hw) in H.
    destruct weather_info as [sentence|];
      [apply weather_info_shape in Hw as [data ->]|]; vm_compute in H; discriminate H.
  - rewrite (offline_answer_places _ _ _ _ _ Hp0) in H.
    destruct places_alone as [info|];
      [apply places_info_shape in Hp0 as (body & -> & _)|]; vm_compute in H; discriminate H.
Qed.

Lemma get_user_choice_picks int_of prompt options keys choice written rest :
  Menu.get_user_choice int_of prompt options keys = (Menu.Picked choice, written, rest) →
  ∃ n, (n < length options)%nat ∧ options !! n = Some choice.
Proof.
  revert written rest. induction keys as [|key keys IH]; intros written rest; simpl; [done|].
  destruct key as [line|]; [|done].
  destruct (int_of (PyStr.strip line)) as [choice_num|].
  - destruct (Z.leb_spec 1 choice_num) as [Hlow|Hlow]; simpl.
    + destruct (Z.leb_spec choice_num (Z.of_nat (length options))) as [Hhigh|Hhigh]; simpl.
      * intros H. injection H as <- _ _.
        exists (Z.to_nat (choice_num - 1)). split; [lia|].
        destruct (nth_lookup_or_length options (Z.to_nat (choice_num - 1)) ""); [done|lia].
      * destruct (Menu.get_user_choice int_of prompt options keys) as [[result out] left_].
        intros H. injection H as -> _ _. by eapply IH.
    + destruct (Menu.get_user_choice int_of prompt options keys) as [[result out] left_].
      intros H. injection H as -> _ _. by eapply IH.
  - destruct (Menu.get_user_choice int_of prompt options keys) as [[result out] left_].
    intros H. injection H as -> _ _. by eapply IH.
Qed.

(** X19: whatever is typed, an option that [get_user_choice] returns is one
    of the options it was given.  For the menu of [main] this means that
    the flags are those of weather only, places only or both, so that
    [process_query] is never called without a facet and its sentence
    "Could not retrieve information for ..." is never shown. *)
Theorem menu_choice_asks_for_a_facet (int_of : string → option Z) (prompt : string)
    (keys rest : list Menu.keyboard) (choice : string) (written : list string) :
  Menu.get_user_choice int_of prompt Menu.info_options keys = (Menu.Picked choice, written, rest) →
  (choice, Menu.choice_flags choice)
  ∈ [("Weather only", (true, false)); ("Tourist places only", (false, true));
     ("Both weather and places", (true, true))]
  ∧ ∀ w place_name log,
      fst (TourismSystemOffline.process_query w place_name
             (fst (Menu.choice_flags choice)) (snd (Menu.choice_flags choice)) log)
      ≠ "Could not retrieve information for " +:+ place_name +:+ ". Please try again.".
Proof.
  intros H. apply get_user_choice_picks in H as (n & Hn & Hchoice).
  assert ((choice, Menu.choice_flags choice)
          ∈ [("Weather only", (true, false)); ("Tourist places only", (false, true));
             ("Both weather and places", (true, true))]) as Hin.
  { destruct n as [|[|[|n]]]; simpl in *; simplify_eq; try lia;
      [by left | right; by left | right; right; by left]. }
  split; [done|]. intros w place_name log. apply offline_answer_not_generic.
  repeat (apply elem_of_cons in Hin as [Hin|Hin]; [by simplify_eq|]).
  by apply elem_of_nil in Hin.
Qed.

Lemma menu_choice_asks_for_a_facet_witness :
  ("Both weather and places", Menu.choice_flags "Both weather and places")
  ∈ [("Weather only", (true, false)); ("Tourist places only", (false, true));
     ("Both weather and places", (true, true))]
  ∧ ∀ w place_name log,
      fst (TourismSystemOffline.process_query w place_name
             (fst (Menu.choice_flags "Both weather and places"))
             (snd (Menu.choice_flags "Both weather and places")) log)
      ≠ "Could not retrieve information for " +:+ place_name +:+ ". Please try again.".
Proof.
  apply (menu_choice_asks_for_a_facet
           (λ text, if String.eqb text "3" then Some 3 else if String.eqb text "7" then Some 7
                    else None)
           "What information would you like?"
           [Menu.Typed "x"; Menu.Typed "7"; Menu.Typed " 3 "; Menu.Typed "1"]
           [Menu.Typed "1"] "Both weather and places"
           (snd (fst (Menu.get_user_choice
                        (λ text, if String.eqb text "3" then Some 3
                                 else if String.eqb text "7" then Some 7 else None)
                        "What information would you like?" Menu.info_options
                        [Menu.Typed "x"; Menu.Typed "7"; Menu.Typed " 3 "; Menu.Typed "1"])))).
  reflexivity.
Defined.

Example menu_interrupted :
  fst (fst (Menu.get_user_choice (λ _, None) "Pick" ["a"; "b"]
              [Menu.Typed "zero"; Menu.Interrupted; Menu.Typed "1"]))
  = Menu.Cancelled.
Proof. reflexivity. Qed.

(** ** More on the intent *)

Lemma substring_of_lower s t : substring_of s t → substring_of (PyStr.lower s) (PyStr.lower t).
Proof.
  intros (pre & post & ->). exists (PyStr.lower pre), (PyStr.lower post).
  by rewrite !lower_app.
Qed.

Lemma substring_of_trans r s t : substring_of r s → substring_of s t → substring_of r t.
Proof.
  intros (pre & post & ->) (pre' & post' & ->).
  exists (pre' +:+ pre), (post +:+ post'). by rewrite !app_assoc'.
Qed.

(** X20: the intent of an ASCII query does not depend on the case of its
    letters.  A weather keyword keeps its effect in any longer text, but
    the Places facet does not: text added to a query can take it away,
    Places being also what a query without any keyword gets. *)
Theorem intent_case_and_context (user_input longer : string) :
  (isascii user_input = true →
   TourismAIAgent.determine_intent (PyStr.upper user_input)
   = TourismAIAgent.determine_intent user_input)
  ∧ (substring_of user_input longer →
     weather (TourismAIAgent.determine_intent user_input) = true →
     weather (TourismAIAgent.determine_intent longer) = true)
  ∧ ∃ short long,
      substring_of short long
      ∧ places (TourismAIAgent.determine_intent short) = true
      ∧ places (TourismAIAgent.determine_intent long) = false.
Proof.
  split_and!.
  - intros _. unfold TourismAIAgent.determine_intent. by rewrite lower_upper.
  - intros Hsub. unfold TourismAIAgent.determine_intent. cbn [weather].
    rewrite !keyword_found. intros (keyword & Hin & Hk).
    exists keyword. split; [done|].
    eapply substring_of_trans; [done|]. by apply substring_of_lower.
  - exists "Bangalore", "Bangalore weather". split_and!; [|done..].
    by exists "", " weather".
Qed.

Lemma intent_case_and_context_witness :
  TourismAIAgent.determine_intent "RAIN" = TourismAIAgent.determine_intent "rain"
  ∧ weather (TourismAIAgent.determine_intent "Will it rain in Bangalore tomorrow?") = true.
Proof.
  destruct (intent_case_and_context "rain" "Will it rain in Bangalore tomorrow?")
    as (Hcase & Hlonger & _).
  split.
  - apply Hcase. reflexivity.
  - apply Hlonger; [by exists "Will it ", " in Bangalore tomorrow?" | reflexivity].
Defined.
